(** * SYSNet training loop: a shallow embedding of [sysnet/sources/train.py]

    The development follows the Python module function by function:
    [add_regularization], [weight_reset], [tune_L1], [tune_model_structure],
    [train_val] and [evaluate].

    Conventions of the embedding.
    - Python floats are idealised as exact rationals ([Q]): the values
      [loss.item()] returns, the running sums and the epoch losses of
      [train_val], and the regularization terms.  The one place where the
      code computes on 0-dim float32 tensors what [train_val] computes on
      Python floats is the accumulation of [evaluate]; its tensor
      arithmetic is kept apart, as the operations [f32_mul], [f32_add] and
      [f32_div] of the interface, and may give [inf] or [nan].
    - A scalar loss tensor is the record [loss_t]: its value, whether it is
      a leaf that requires grad (no in-place update is allowed on one), and
      whether a tensor its graph saved for the backward pass has been
      modified in place since (the backward pass then raises).  The
      criterion is a [torch.nn] loss, as the docstring of [train_val] says:
      its result is the output of a reduction, not a leaf that requires
      grad and not saved by its own graph.  Parameters require grad, and
      gradient recording is on where [add_regularization] is called.
    - Objects that the Python code mutates in place (the model, the optimizer,
      the scheduler, the file system) live in an explicit [heap] which is
      threaded through a state-and-exception monad.  An exception leaves the
      heap as it was when the exception was raised.
    - PyTorch itself (forward pass, autograd, optimizer and scheduler updates,
      parameter re-initialisation) is not part of the repository: it is an
      interface ([TorchOps]) of uninterpreted operations.  What decides
      whether a call of it raises in the loop is modelled: the in-place
      updates of [add_regularization], and the file [torch.save] is to
      create.  The [RuntimeError]s it raises then carry PyTorch's messages,
      which are part of the interface.
    - [.to(device)] only changes where a tensor is stored; tensors and modules
      are identified with their values, so device placement does not appear.
    - A data loader is the list of its batches, and [len] of it the number
      of batches; reshuffling between epochs and the random numbers drawn
      by re-initialisation are not modelled.
    - Dataset sizes are Python ints, so dividing by a size of zero raises.
    - [print] calls are dropped.
    - Calls on the optimizer and on the scheduler, backward passes and
      writes to the file system are recorded in a ghost [h_trace], in
      program order, when they return. *)

From Stdlib Require Import ZArith QArith Qabs Qround String Ascii Bool Lia Lqa.
From Stdlib Require Import DecimalString DecimalNat.
From Stdlib Require Import List Sorted.
Import ListNotations.

Open Scope Q_scope.

(** ** Python exceptions and results *)

Inductive exn : Type :=
| RuntimeError (msg : string)
| AssertionError (msg : string)
| ZeroDivisionError
| IndexError
| AttributeError
| TypeError
| ValueError
| FileNotFoundError.

Inductive result (A : Type) : Type :=
| Ok (a : A)
| Raise (e : exn).

Arguments Ok {A} a.
Arguments Raise {A} e.

(** ** Rational arithmetic as used by the loop *)

(** [x < y] on floats. *)
Definition Qltb (x y : Q) : bool :=
  (Qnum x * QDen y <? Qnum y * QDen x)%Z.

(** [x / n] for a Python float [x] and a Python int [n]. *)
Definition py_div (x : Q) (n : Z) : result Q :=
  if (n =? 0)%Z then Raise ZeroDivisionError else Ok (x / inject_Z n).

(** The builtin [min] on a list: the first minimal element,
    [ValueError] on an empty list. *)
Definition min_step (best v : Q) : Q := if Qltb v best then v else best.

Definition py_min (l : list Q) : result Q :=
  match l with
  | [] => Raise ValueError
  | x :: xs => Ok (fold_left min_step xs x)
  end.

(** [np.argmin]: index of the first minimal element, [ValueError] on an
    empty sequence. *)
Fixpoint argmin_from (l : list Q) (i : nat) (best_i : nat) (best : Q) : nat :=
  match l with
  | [] => best_i
  | v :: l' =>
      if Qltb v best then argmin_from l' (S i) i v
      else argmin_from l' (S i) best_i best
  end.

Definition np_argmin (l : list Q) : result nat :=
  match l with
  | [] => Raise ValueError
  | x :: xs => Ok (argmin_from xs 1 0 x)
  end.

(** [np.linspace(start, stop, num)], exact and in lowest terms. *)
Definition np_linspace (start stop : Q) (num : nat) : list Q :=
  let step := (stop - start) / inject_Z (Z.of_nat (num - 1)) in
  map (fun k => Qred (inject_Z (Z.of_nat k) * step + start)) (seq 0 num).

(** [range(n)] *)
Definition py_range (n : Z) : list Z :=
  map Z.of_nat (seq 0 (Z.to_nat n)).

(** ** [os.path] on POSIX *)

Definition sep : ascii := "/"%char.

Definition is_sep (c : ascii) : bool := Ascii.eqb c sep.

Fixpoint drop_while {A} (p : A -> bool) (l : list A) : list A :=
  match l with
  | [] => []
  | x :: l' => if p x then drop_while p l' else l
  end.

(** [p.rstrip('/')] *)
Definition rstrip_sep (l : list ascii) : list ascii :=
  rev (drop_while is_sep (rev l)).

(** [p[:p.rfind('/') + 1]] *)
Definition upto_last_sep (l : list ascii) : list ascii :=
  rev (drop_while (fun c => negb (is_sep c)) (rev l)).

(** [os.path.dirname] *)
Definition os_path_dirname (p : string) : string :=
  let head := upto_last_sep (list_ascii_of_string p) in
  string_of_list_ascii
    (if negb (forallb is_sep head) then rstrip_sep head else head).

(** [p.endswith('/')] *)
Definition ends_with_sep (p : string) : bool :=
  match rev (list_ascii_of_string p) with
  | c :: _ => is_sep c
  | [] => false
  end.

(** ** Floats that need not be finite *)

(** A float: [Finite q], or [inf]/[nan]. *)
Inductive pyfloat : Type :=
| Finite (q : Q)
| NotFinite.

(** ** Scalar loss tensors *)

(** A 0-dim loss tensor, as far as the training loop looks at it. *)
Record loss_t : Type := {
  item : Q;                     (* loss.item() *)
  leaf_requires_grad : bool;    (* a leaf of the graph that requires grad *)
  saved_modified : bool;        (* a tensor saved for its backward pass was
                                   modified in place afterwards *)
}.

(** The result of [criterion(outputs, target)]. *)
Definition criterion_loss (value : Q) : loss_t :=
  {| item := value; leaf_requires_grad := false; saved_modified := false |}.

(** ** Tensors, modules and the PyTorch interface *)

Class TorchTypes : Type := {
  tensor : Type;      (* torch.Tensor: batches, outputs, parameters, buffers *)
  autograd : Type;    (* recorded graph and accumulated [.grad] of a module *)
  optimizer : Type;   (* torch.optim.Optimizer state *)
  scheduler : Type;   (* torch.optim.lr_scheduler state *)
  adamw_kw_t : Type;  (* keyword arguments of AdamW *)
}.

(** The two classes [weight_reset] tests for, and everything else. *)
Inductive layer_type : Type := Linear | BatchNorm1d | OtherLayer.

Section Modules.
Context {TT : TorchTypes}.

Record layer : Type := {
  ltype : layer_type;
  weight : option tensor;       (* [.weight], when the layer has one *)
  bias : option tensor;
  buffers : list tensor;        (* running statistics and the like *)
}.

(** What [state_dict()] holds: parameters and buffers of each layer. *)
Definition weights : Type := list layer.

Record module : Type := {
  fc : list layer;              (* [model.fc], the sequence of layers *)
  grad : autograd;
  training : bool;              (* set by [.train()] / [.eval()] *)
}.

Definition opt_to_list {A} (o : option A) : list A :=
  match o with Some a => [a] | None => [] end.

Definition layer_parameters (l : layer) : list tensor :=
  opt_to_list (weight l) ++ opt_to_list (bias l).

(** [model.parameters()] *)
Definition parameters (m : module) : list tensor :=
  flat_map layer_parameters (fc m).

(** [model.state_dict()]; values, so already a deep copy. *)
Definition state_dict (m : module) : weights := fc m.

(** [model.load_state_dict(w)], for a [w] whose keys match the model. *)
Definition load_state_dict (w : weights) (m : module) : module :=
  {| fc := w; grad := grad m; training := training m |}.

Definition set_training (b : bool) (m : module) : module :=
  {| fc := fc m; grad := grad m; training := b |}.

(** [model.apply(fn)] for an [fn] that acts on the leaf layers. *)
Definition module_apply (fn : layer -> layer) (m : module) : module :=
  {| fc := map fn (fc m); grad := grad m; training := training m |}.

(** *** File system *)

Inductive fs_entry : Type :=
| Dir
| File (content : weights).

Definition filesystem : Type := string -> option fs_entry.

(** [os.path.exists]; the empty path never exists. *)
Definition os_path_exists (fs : filesystem) (p : string) : bool :=
  if String.eqb p EmptyString then false
  else match fs p with Some _ => true | None => false end.

(** The directory [p] lies in is there: the current directory for a bare
    name, a directory entry otherwise. *)
Definition parent_is_dir (fs : filesystem) (p : string) : bool :=
  let d := os_path_dirname p in
  String.eqb d EmptyString ||
  match fs d with Some Dir => true | _ => false end.

(** [p] can be opened for writing: it is not empty, does not end in a
    separator and does not name a directory. *)
Definition names_file (fs : filesystem) (p : string) : bool :=
  negb (String.eqb p EmptyString) && negb (ends_with_sep p) &&
  match fs p with Some Dir => false | _ => true end.

(** A file can be created at [p], or the file at [p] overwritten. *)
Definition can_write (fs : filesystem) (p : string) : bool :=
  parent_is_dir fs p && names_file fs p.

(** The file system with a file of content [w] at [p]. *)
Definition write_file (w : weights) (p : string) (fs : filesystem) : filesystem :=
  fun q => if String.eqb q p then Some (File w) else fs q.

(** [torch.load(path)] *)
Definition torch_load (p : string) (fs : filesystem) : result weights :=
  match fs p with
  | Some (File w) => Ok w
  | _ => Raise FileNotFoundError
  end.

End Modules.

Class TorchOps {TT : TorchTypes} : Type := {
  size0 : tensor -> Z;                              (* data.size(0) *)
  norm1 : tensor -> Q;                              (* torch.norm(W, p=1) *)
  norm2 : tensor -> Q;                              (* W.norm(2) *)
  forward : module -> tensor -> module * tensor;    (* model(data) *)
  backward : Q -> module -> module;                 (* loss.backward() *)
  backward_aborted : Q -> module -> module;
                    (* the gradients a backward pass that raises leaves *)
  zero_grad : optimizer -> module -> module;        (* optimizer.zero_grad() *)
  opt_step : optimizer -> module -> optimizer * module;  (* optimizer.step() *)
  sched_step : Q -> scheduler -> optimizer -> scheduler * optimizer;
                                                    (* scheduler.step(x) *)
  reset_parameters : layer -> layer;                (* m.reset_parameters() *)
  AdamW : list tensor -> adamw_kw_t -> optimizer;   (* AdamW(params, **kw) *)
  (* arithmetic on 0-dim float32 tensors *)
  f32_mul : pyfloat -> Z -> pyfloat;                (* tensor * int *)
  f32_add : pyfloat -> pyfloat -> pyfloat;          (* tensor + tensor *)
  f32_div : pyfloat -> Z -> pyfloat;                (* tensor / int *)
  (* the messages of the RuntimeErrors PyTorch raises *)
  inplace_msg : string;           (* in-place update of a leaf requiring grad *)
  backward_msg : string;          (* backward through a tensor modified in place *)
  save_msg : string -> string;    (* torch.save cannot create the file *)
}.

(** The early-stopping callback, [sysnet/sources/callbacks.py], as the
    interface [train_val] uses: construction, call, and the [early_stop]
    attribute. *)
Class EarlyStoppingT : Type := {
  es_state : Type;
  EarlyStopping : Z -> bool -> es_state;            (* patience, verbose *)
  es_call : es_state -> Q -> es_state;              (* early_stopping(loss) *)
  early_stop : es_state -> bool;
}.

(** ** Heap and the state-and-exception monad *)

(** Calls observed on the optimizer, the scheduler and the file system. *)
Inductive event : Type :=
| EvSchedulerStep (x : Q)     (* scheduler.step(x) *)
| EvZeroGrad                  (* optimizer.zero_grad() *)
| EvBackward                  (* loss.backward() *)
| EvOptimizerStep             (* optimizer.step() *)
| EvSave (path : string).     (* torch.save(_, path) *)

Section Train.
Context {TT : TorchTypes} {TO : TorchOps} {ES : EarlyStoppingT}.

Record heap : Type := {
  h_model : module;
  h_optim : optimizer;
  h_sched : option scheduler;   (* [None] when no scheduler was passed *)
  h_fs : filesystem;
  h_trace : list event;
}.

Definition M (A : Type) : Type := heap -> result A * heap.

Definition ret {A} (a : A) : M A := fun h => (Ok a, h).

Definition raise {A} (e : exn) : M A := fun h => (Raise e, h).

Definition bind {A B} (c : M A) (k : A -> M B) : M B :=
  fun h => match c h with
           | (Ok a, h') => k a h'
           | (Raise e, h') => (Raise e, h')
           end.

Definition lift {A} (r : result A) : M A :=
  match r with Ok a => ret a | Raise e => raise e end.

Notation "x <- c ;; k" := (bind c (fun x => k))
  (at level 61, c at next level, right associativity).
Notation "c ;;; k" := (bind c (fun _ => k))
  (at level 61, right associativity).

Definition get_model : M module := fun h => (Ok (h_model h), h).

Definition set_model (m : module) : M unit :=
  fun h => (Ok tt, {| h_model := m; h_optim := h_optim h; h_sched := h_sched h;
                      h_fs := h_fs h; h_trace := h_trace h |}).

(** [model.train()] and [model.eval()] *)
Definition model_train : M unit :=
  fun h => set_model (set_training true (h_model h)) h.

Definition model_eval : M unit :=
  fun h => set_model (set_training false (h_model h)) h.

(** [outputs = model(data)] *)
Definition model_call (data : tensor) : M tensor :=
  fun h => let (m', out) := forward (h_model h) data in
           (Ok out, {| h_model := m'; h_optim := h_optim h; h_sched := h_sched h;
                       h_fs := h_fs h; h_trace := h_trace h |}).

(** [scheduler.step(x)]: updates the scheduler and the learning rate held
    by the optimizer. *)
Definition scheduler_step (sc : scheduler) (x : Q) : M unit :=
  fun h => let (sc', o') := sched_step x sc (h_optim h) in
           (Ok tt, {| h_model := h_model h; h_optim := o'; h_sched := Some sc';
                      h_fs := h_fs h; h_trace := h_trace h ++ [EvSchedulerStep x] |}).

Definition optimizer_zero_grad : M unit :=
  fun h => (Ok tt, {| h_model := zero_grad (h_optim h) (h_model h);
                      h_optim := h_optim h; h_sched := h_sched h;
                      h_fs := h_fs h; h_trace := h_trace h ++ [EvZeroGrad] |}).

(** [loss.backward()]: raises when a tensor the graph of [loss] saved has
    been modified in place. *)
Definition loss_backward (loss : loss_t) : M unit :=
  fun h =>
    if saved_modified loss then
      (Raise (RuntimeError backward_msg),
       {| h_model := backward_aborted (item loss) (h_model h);
          h_optim := h_optim h; h_sched := h_sched h;
          h_fs := h_fs h; h_trace := h_trace h |})
    else
      (Ok tt, {| h_model := backward (item loss) (h_model h);
                 h_optim := h_optim h; h_sched := h_sched h;
                 h_fs := h_fs h; h_trace := h_trace h ++ [EvBackward] |}).

Definition optimizer_step : M unit :=
  fun h => let (o', m') := opt_step (h_optim h) (h_model h) in
           (Ok tt, {| h_model := m'; h_optim := o'; h_sched := h_sched h;
                      h_fs := h_fs h; h_trace := h_trace h ++ [EvOptimizerStep] |}).

(** [torch.save(obj, path)]: writes the file, or raises when it cannot be
    created; nothing is written then. *)
Definition torch_save (w : weights) (p : string) (fs : filesystem)
    : result filesystem :=
  if can_write fs p then Ok (write_file w p fs)
  else Raise (RuntimeError (save_msg p)).

Definition save (w : weights) (path : string) : M unit :=
  fun h =>
    match torch_save w path (h_fs h) with
    | Ok fs' =>
        (Ok tt, {| h_model := h_model h; h_optim := h_optim h;
                   h_sched := h_sched h;
                   h_fs := fs';
                   h_trace := h_trace h ++ [EvSave path] |})
    | Raise e => (Raise e, h)
    end.

(** ** [add_regularization] *)

(** [loss += term], with gradient recording on.  It is refused on a leaf
    that requires grad; otherwise [loss] is updated in place and is the
    output of the addition.  [term_modified] tells whether [term] was
    computed from a tensor that was saved for the backward pass and
    modified in place since. *)
Definition loss_iadd (loss : loss_t) (term : Q) (term_modified : bool)
    : result loss_t :=
  if leaf_requires_grad loss then Raise (RuntimeError inplace_msg)
  else Ok {| item := item loss + term;
             leaf_requires_grad := false;
             saved_modified := saved_modified loss || term_modified |}.

(** The accumulation [l2_reg = None; for W in ...: l2_reg = W.norm(2) or
    l2_reg += W.norm(2)].  The tensor [W.norm(2)] returns is saved for the
    backward pass of the norm; [l2_reg += ...] modifies the first of them
    in place, which the flag records. *)
Definition l2_accumulate (l2_reg : option (Q * bool)) (W : tensor)
    : option (Q * bool) :=
  match l2_reg with
  | None => Some (norm2 W, false)
  | Some (r, _) => Some (r + norm2 W, true)
  end.

Definition add_regularization (model : module) (loss : loss_t)
    (L1norm L2norm : bool) (L1lambda L2lambda : Q) : result loss_t :=
  let after_l1 :=
    if L1norm then
      match fc model with
      | [] => Raise IndexError                      (* model.fc[0] *)
      | l0 :: _ =>
          match weight l0 with
          | None => Raise AttributeError            (* .weight *)
          | Some W => loss_iadd loss (L1lambda * norm1 W) false
          end
      end
    else Ok loss in
  match after_l1 with
  | Raise e => Raise e
  | Ok loss =>
      if L2norm then
        match fold_left l2_accumulate (parameters model) None with
        | None => Raise TypeError                   (* L2lambda * None *)
        | Some (l2_reg, modified) => loss_iadd loss (L2lambda * l2_reg) modified
        end
      else Ok loss
  end.

(** ** [weight_reset] *)

Definition weight_reset (m : layer) : layer :=
  match ltype m with
  | BatchNorm1d | Linear => reset_parameters m
  | OtherLayer => m
  end.

(** ** [train_val] *)

Definition batch : Type := (tensor * tensor)%type.   (* (data, target) *)

Record dataloaders_t : Type := {
  dl_train : list batch;
  dl_valid : list batch;
  dl_test : list batch;
}.

Record datasets_len_t : Type := {
  len_train : Z;
  len_valid : Z;
  len_test : Z;
}.

Inductive phase_t : Type := train | valid | test.

Definition dataloader (d : dataloaders_t) (p : phase_t) : list batch :=
  match p with train => dl_train d | valid => dl_valid d | test => dl_test d end.

Definition dataset_len (d : datasets_len_t) (p : phase_t) : Z :=
  match p with train => len_train d | valid => len_valid d | test => len_test d end.

(** The training updates of one epoch (lines 173-197): returns the batch
    counter [i] and [running_train_loss]. *)
Fixpoint train_batches (criterion : tensor -> tensor -> Q)
    (L1norm L2norm : bool) (L1lambda L2lambda : Q)
    (epoch num_iter : Z) (batches : list batch) (i : Z) (running_train_loss : Q)
    : M (Z * Q) :=
  match batches with
  | [] => ret (i, running_train_loss)
  | (data, target) :: rest =>
      i' <- (fun h =>
               match h_sched h with
               | Some sc =>
                   (scheduler_step sc (inject_Z epoch + inject_Z i / inject_Z num_iter) ;;;
                    ret (i + 1)%Z) h
               | None => ret i h
               end) ;;
      optimizer_zero_grad ;;;
      outputs <- model_call data ;;
      model <- get_model ;;
      loss <- lift (add_regularization model
                      (criterion_loss (criterion outputs target))
                      L1norm L2norm L1lambda L2lambda) ;;
      loss_backward loss ;;;
      optimizer_step ;;;
      train_batches criterion L1norm L2norm L1lambda L2lambda epoch num_iter rest i'
        (running_train_loss + item loss * inject_Z (size0 data))
  end.

(** The validation pass of one epoch (lines 205-210). *)
Fixpoint valid_batches (criterion : tensor -> tensor -> Q)
    (batches : list batch) (running_valid_loss : Q) : M Q :=
  match batches with
  | [] => ret running_valid_loss
  | (data, target) :: rest =>
      outputs <- model_call data ;;
      valid_batches criterion rest
        (running_valid_loss + criterion outputs target * inject_Z (size0 data))
  end.

(** The local variables that live across epochs. *)
Record locals : Type := {
  train_losses : list Q;
  valid_losses : list Q;
  best_model_wts : option weights;   (* bound only when [output_path] is given *)
  best_val_loss : Q;
  early_stopping : es_state;
}.

(** One iteration of [for epoch in range(nepochs)], up to and including
    the call of the early-stopping monitor. *)
Definition epoch_body (dataloaders : dataloaders_t) (datasets_len : datasets_len_t)
    (criterion : tensor -> tensor -> Q) (output_path : option string)
    (L1lambda L2lambda : Q) (L1norm L2norm : bool)
    (num_iter : Z) (epoch : Z) (v : locals) : M locals :=
  model_train ;;;
  ir <- train_batches criterion L1norm L2norm L1lambda L2lambda epoch num_iter
          (dataloader dataloaders train) 0%Z 0 ;;
  loss_train_epoch <- lift (py_div (snd ir) (dataset_len datasets_len train)) ;;
  model_eval ;;;
  running_valid_loss <- valid_batches criterion (dataloader dataloaders valid) 0 ;;
  loss_valid_epoch <- lift (py_div running_valid_loss (dataset_len datasets_len valid)) ;;
  model <- get_model ;;
  let improved := Qltb loss_valid_epoch (best_val_loss v) in
  ret {| train_losses := train_losses v ++ [loss_train_epoch];
         valid_losses := valid_losses v ++ [loss_valid_epoch];
         best_model_wts :=
           if improved then
             match output_path with
             | Some _ => Some (state_dict model)
             | None => best_model_wts v
             end
           else best_model_wts v;
         best_val_loss := if improved then loss_valid_epoch else best_val_loss v;
         early_stopping := es_call (early_stopping v) loss_valid_epoch |}.

(** The epoch loop with its [break]. *)
Fixpoint epoch_loop (dataloaders : dataloaders_t) (datasets_len : datasets_len_t)
    (criterion : tensor -> tensor -> Q) (output_path : option string)
    (L1lambda L2lambda : Q) (L1norm L2norm : bool)
    (num_iter : Z) (epochs : list Z) (v : locals) : M locals :=
  match epochs with
  | [] => ret v
  | epoch :: rest =>
      v' <- epoch_body dataloaders datasets_len criterion output_path
              L1lambda L2lambda L1norm L2norm num_iter epoch v ;;
      if early_stop (early_stopping v') then ret v'
      else epoch_loop dataloaders datasets_len criterion output_path
             L1lambda L2lambda L1norm L2norm num_iter rest v'
  end.

Definition train_val (dataloaders : dataloaders_t) (datasets_len : datasets_len_t)
    (criterion : tensor -> tensor -> Q) (nepochs : Z)
    (output_path : option string)
    (L1lambda L2lambda : Q) (L1norm L2norm : bool)
    : M (list Q * list Q * Q) :=
  (fun h =>
     match output_path with
     | Some p =>
         let output_dir := os_path_dirname p in
         if negb (os_path_exists (h_fs h) output_dir)
         then raise (RuntimeError (output_dir ++ " does not exist")%string) h
         else ret tt h
     | None => ret tt h
     end) ;;;
  model <- get_model ;;
  let v0 := {| train_losses := [];
               valid_losses := [];
               best_model_wts :=
                 match output_path with
                 | Some _ => Some (state_dict model)
                 | None => None
                 end;
               best_val_loss := 1.0e6;
               early_stopping := EarlyStopping 10 true |} in
  let num_iter := Z.of_nat (List.length (dataloader dataloaders train)) in
  v <- epoch_loop dataloaders datasets_len criterion output_path
         L1lambda L2lambda L1norm L2norm num_iter (py_range nepochs) v0 ;;
  match output_path, best_model_wts v with
  | Some p, Some w => save w p
  | _, _ => ret tt
  end ;;;
  ret (train_losses v, valid_losses v, best_val_loss v).

(** ** [evaluate] *)

(** [loss += term], for [loss] the Python int [0] it was initialised to
    ([None] here) or a 0-dim float32 tensor; [0 + term] is [term]. *)
Definition f32_accumulate (loss : option pyfloat) (term : pyfloat) : pyfloat :=
  match loss with
  | None => term
  | Some l => f32_add l term
  end.

(** The accumulation [loss += criterion(target, model(data)) * data.size(0)]
    on float32 tensors. *)
Fixpoint evaluate_batches (criterion : tensor -> tensor -> Q)
    (batches : list batch) (loss : option pyfloat) : M (option pyfloat) :=
  match batches with
  | [] => ret loss
  | (data, target) :: rest =>
      outputs <- model_call data ;;
      evaluate_batches criterion rest
        (Some (f32_accumulate loss
                 (f32_mul (Finite (criterion target outputs)) (size0 data))))
  end.

Definition evaluate (dataloaders : dataloaders_t) (datasets_len : datasets_len_t)
    (criterion : tensor -> tensor -> Q) (phase : phase_t) : M pyfloat :=
  model_eval ;;;
  loss <- evaluate_batches criterion (dataloader dataloaders phase) None ;;
  let n := dataset_len datasets_len phase in
  match loss with
  | Some l =>
      (* tensor / int, then .item(); a division by zero gives inf or nan *)
      ret (f32_div l n)
  | None =>
      (* int / int is a float, which has no .item() *)
      if (n =? 0)%Z then raise ZeroDivisionError else raise AttributeError
  end.

(** ** Calling with local objects *)

(** Run [c] with [scheduler=None]; the caller's binding is untouched. *)
Definition without_scheduler {A} (c : M A) : M A :=
  fun h =>
    let (r, h') := c {| h_model := h_model h; h_optim := h_optim h; h_sched := None;
                        h_fs := h_fs h; h_trace := h_trace h |} in
    (r, {| h_model := h_model h'; h_optim := h_optim h'; h_sched := h_sched h;
           h_fs := h_fs h'; h_trace := h_trace h' |}).

(** Run [c] on a model and an optimizer that are local to the caller:
    only the file system and the trace outlive the call. *)
Definition with_locals {A} (m : module) (o : optimizer) (c : M A) : M A :=
  fun h =>
    let (r, h') := c {| h_model := m; h_optim := o; h_sched := None;
                        h_fs := h_fs h; h_trace := h_trace h |} in
    (r, {| h_model := h_model h; h_optim := h_optim h; h_sched := h_sched h;
           h_fs := h_fs h'; h_trace := h_trace h' |}).

(** ** [tune_L1] *)

(** [np.logspace(start, stop, num)] is [10 ** np.linspace(start, stop, num)];
    [power10] is the floating-point power. *)
Variable power10 : Q -> Q.

Definition np_logspace (start stop : Q) (num : nat) : list Q :=
  map power10 (np_linspace start stop num).

Definition assert_msg : string := "max nepochs for hyper parameter tunning: 10".

(** The body of [for l1_lambda in l1_lambdas], accumulating
    [history['best_val_losses']]. *)
Fixpoint tune_L1_trials (dataloaders : dataloaders_t) (datasets_len : datasets_len_t)
    (criterion : tensor -> tensor -> Q) (nepochs : Z)
    (l1_lambdas : list Q) (best_val_losses : list Q) : M (list Q) :=
  match l1_lambdas with
  | [] => ret best_val_losses
  | l1_lambda :: rest =>
      model <- get_model ;;
      set_model (module_apply weight_reset model) ;;;
      r <- without_scheduler
             (train_val dataloaders datasets_len criterion nepochs None
                l1_lambda 1.0e-6 true false) ;;
      tune_L1_trials dataloaders datasets_len criterion nepochs rest
        (best_val_losses ++ [snd r])
  end.

Definition tune_L1 (dataloaders : dataloaders_t) (datasets_len : datasets_len_t)
    (criterion : tensor -> tensor -> Q) (nepochs : Z) : M Q :=
  if negb (nepochs <? 10)%Z then raise (AssertionError assert_msg)
  else
    let l1_lambdas := np_logspace (-6) 0 10 in
    best_val_losses <- tune_L1_trials dataloaders datasets_len criterion nepochs
                         l1_lambdas [] ;;
    i <- lift (np_argmin best_val_losses) ;;
    match nth_error l1_lambdas i with
    | Some best_l1lambda => ret best_l1lambda
    | None => raise IndexError
    end.

(** ** [tune_model_structure] *)

Variable structure_t : Type.

Fixpoint tune_model_structure_trials (DNN : structure_t -> module)
    (dataloaders : dataloaders_t) (datasets_len : datasets_len_t)
    (criterion : tensor -> tensor -> Q) (nepochs : Z)
    (adamw_kw : adamw_kw_t)
    (structures : list structure_t) (best_val_losses : list Q) : M (list Q) :=
  match structures with
  | [] => ret best_val_losses
  | structure :: rest =>
      let model := DNN structure in
      let optimizer := AdamW (parameters model) adamw_kw in
      r <- with_locals model optimizer
             (train_val dataloaders datasets_len criterion nepochs None
                1.0e-3 1.0e-6 false false) ;;
      tune_model_structure_trials DNN dataloaders datasets_len criterion nepochs
        adamw_kw rest (best_val_losses ++ [snd r])
  end.

Definition tune_model_structure (DNN : structure_t -> module)
    (dataloaders : dataloaders_t) (datasets_len : datasets_len_t)
    (criterion : tensor -> tensor -> Q) (nepochs : Z)
    (structures : list structure_t) (adamw_kw : adamw_kw_t) : M structure_t :=
  if negb (nepochs <? 10)%Z then raise (AssertionError assert_msg)
  else
    best_val_losses <- tune_model_structure_trials DNN dataloaders datasets_len
                         criterion nepochs adamw_kw structures [] ;;
    i <- lift (np_argmin best_val_losses) ;;
    match nth_error structures i with
    | Some best_structure => ret best_structure
    | None => raise IndexError
    end.

End Train.

Arguments tune_model_structure {TT TO ES structure_t}.
Arguments tune_model_structure_trials {TT TO ES structure_t}.

(** ** The early-stopping monitor *)

Record es_record : Type := {
  es_patience : Z;
  es_verbose : bool;
  es_best : option Q;      (* [None] is +infinity *)
  es_counter : Z;
  es_terminal : bool;
}.

(** Modelled from the spec: the class [EarlyStopping] of
    [sysnet/sources/callbacks.py] is not among the sources.  Section 4.2:
    the best-seen loss is initially +infinity; if [val_loss < best] the new
    best is recorded and the counter reset to 0, else the counter is
    incremented and, when it reaches [patience], the terminal flag is set. *)
Definition es_update (s : es_record) (val_loss : Q) : es_record :=
  let improves :=
    match es_best s with
    | None => true
    | Some b => Qltb val_loss b
    end in
  if improves then
    {| es_patience := es_patience s; es_verbose := es_verbose s;
       es_best := Some val_loss; es_counter := 0; es_terminal := es_terminal s |}
  else
    let c := (es_counter s + 1)%Z in
    {| es_patience := es_patience s; es_verbose := es_verbose s;
       es_best := es_best s; es_counter := c;
       es_terminal := if (es_patience s <=? c)%Z then true else es_terminal s |}.

#[export] Instance EarlyStopping_spec : EarlyStoppingT := {|
  es_state := es_record;
  EarlyStopping := fun patience verbose =>
    {| es_patience := patience; es_verbose := verbose;
       es_best := None; es_counter := 0; es_terminal := false |};
  es_call := es_update;
  early_stop := es_terminal;
|}.

(** ** A small concrete PyTorch: scalar tensors

    Tensors are single rationals; a layer computes [x + weight]; the
    optimizer moves every weight by one and counts its steps; the scheduler
    remembers the arguments it was stepped with; arithmetic on float32
    tensors is exact. *)
Module Toy.

#[export] Instance types : TorchTypes := {|
  tensor := Q;
  autograd := unit;
  optimizer := nat;
  scheduler := list Q;
  adamw_kw_t := unit;
|}.

Definition shift_layer (d : Q) (l : layer) : layer :=
  {| ltype := ltype l;
     weight := option_map (fun w => Qred (w + d)) (weight l);
     bias := bias l; buffers := buffers l |}.

Definition apply_layer (x : Q) (l : layer) : Q :=
  match weight l with Some w => x + w | None => x end.

Definition map_finite (f : Q -> Q) (x : pyfloat) : pyfloat :=
  match x with
  | Finite q => Finite (Qred (f q))
  | NotFinite => NotFinite
  end.

Definition add_finite (x y : pyfloat) : pyfloat :=
  match x, y with
  | Finite a, Finite b => Finite (Qred (a + b))
  | _, _ => NotFinite
  end.

#[export] Instance ops : TorchOps := {|
  size0 := fun _ => 1%Z;
  norm1 := Qabs;
  norm2 := Qabs;
  forward := fun m x => (m, Qred (fold_left apply_layer (fc m) x));
  backward := fun _ m => m;
  backward_aborted := fun _ m => m;
  f32_mul := fun x n => map_finite (fun q => q * inject_Z n) x;
  f32_add := add_finite;
  f32_div := fun x n =>
    if (n =? 0)%Z then NotFinite else map_finite (fun q => q / inject_Z n) x;
  inplace_msg :=
    "a leaf Variable that requires grad is being used in an in-place operation.";
  backward_msg :=
    "one of the variables needed for gradient computation has been modified by an inplace operation";
  save_msg := fun p => ("File " ++ p ++ " cannot be opened.")%string;
  zero_grad := fun _ m => m;
  opt_step := fun o m => (S o, module_apply (shift_layer 1) m);
  sched_step := fun x sc o => (sc ++ [x], o);
  reset_parameters := fun l =>
    {| ltype := ltype l; weight := option_map (fun _ => 0) (weight l);
       bias := bias l; buffers := buffers l |};
  AdamW := fun _ _ => 0%nat;
|}.

(** A rational stand-in for [10 ** e]: exact at the integers, linear in
    between. *)
Definition power10 (e : Q) : Q :=
  let n := Qfloor e in
  Qred (Qpower 10 n * (1 + 9 * (e - inject_Z n))).

(** Squared error. *)
Definition mse (a b : Q) : Q := Qred ((a - b) * (a - b)).

Definition linear (w : Q) : layer :=
  {| ltype := Linear; weight := Some w; bias := None; buffers := [] |}.

Definition net (w : Q) : module :=
  {| fc := [linear w]; grad := tt; training := true |}.

(** A layer with a weight and a bias: two parameter tensors. *)
Definition affine (w b : Q) : layer :=
  {| ltype := Linear; weight := Some w; bias := Some b; buffers := [] |}.

Definition net2 (w b : Q) : module :=
  {| fc := [affine w b]; grad := tt; training := true |}.

(** A file system with the root and [/out] as directories. *)
Definition fs0 : filesystem :=
  fun p => if String.eqb p "/" then Some Dir
           else if String.eqb p "/out" then Some Dir else None.

Definition heap0 (w : Q) (sc : option scheduler) : heap :=
  {| h_model := net w; h_optim := 0%nat; h_sched := sc;
     h_fs := fs0; h_trace := [] |}.

Definition loaders (tr va : list (Q * Q)) : dataloaders_t :=
  {| dl_train := tr; dl_valid := va; dl_test := [] |}.

Definition sizes (tr va : Z) : datasets_len_t :=
  {| len_train := tr; len_valid := va; len_test := 0 |}.

End Toy.

(** * Specification-level notions *)

Section SpecDefs.
Context {TT : TorchTypes} {TO : TorchOps}.

(** [model.fc[0].weight] is defined. *)
Definition has_first_weight (m : module) : Prop :=
  match fc m with
  | l0 :: _ => weight l0 <> None
  | [] => False
  end.

(** The PyTorch operations keep [model.fc[0].weight] defined. *)
Record keeps_first_weight : Prop := {
  kfw_forward : forall m x, has_first_weight m -> has_first_weight (fst (forward m x));
  kfw_backward : forall l m, has_first_weight m -> has_first_weight (backward l m);
  kfw_zero_grad : forall o m, has_first_weight m -> has_first_weight (zero_grad o m);
  kfw_opt_step : forall o m, has_first_weight m -> has_first_weight (snd (opt_step o m));
}.

(** Up to the backward pass the PyTorch operations keep the number of
    parameter tensors of the model. *)
Record keeps_parameters : Prop := {
  kp_forward : forall m x,
    List.length (parameters (fst (forward m x))) = List.length (parameters m);
  kp_zero_grad : forall o m,
    List.length (parameters (zero_grad o m)) = List.length (parameters m);
}.

(** In evaluation mode the forward pass leaves the module alone and its
    output is a function of the state dict. *)
Record eval_forward_pure : Prop := {
  efp_module : forall m x, training m = false -> fst (forward m x) = m;
  efp_output : forall m m' x,
    training m = false -> training m' = false -> fc m = fc m' ->
    snd (forward m x) = snd (forward m' x);
}.

(** The weighted sum of the losses of a module over a list of batches,
    when calling the module does not change it. *)
Fixpoint eval_sum (criterion : tensor -> tensor -> Q) (m : module)
    (batches : list (tensor * tensor)) (running : Q) : Q :=
  match batches with
  | [] => running
  | (data, target) :: rest =>
      eval_sum criterion m rest
        (running + criterion (snd (forward m data)) target * inject_Z (size0 data))
  end.

(** The accumulation of [evaluate] over the batches, with the criterion
    called as [train_val] calls it, when calling the module does not change
    it: the float32 counterpart of [eval_sum]. *)
Fixpoint eval_sum32 (criterion : tensor -> tensor -> Q) (m : module)
    (batches : list (tensor * tensor)) (loss : option pyfloat) : option pyfloat :=
  match batches with
  | [] => loss
  | (data, target) :: rest =>
      eval_sum32 criterion m rest
        (Some (f32_accumulate loss
                 (f32_mul (Finite (criterion (snd (forward m data)) target))
                    (size0 data))))
  end.

(** The calls one training batch makes, with batch index [i], when a
    scheduler is present. *)
Definition batch_events (epoch num_iter : Z) (i : nat) : list event :=
  [EvSchedulerStep (inject_Z epoch + inject_Z (Z.of_nat i) / inject_Z num_iter);
   EvZeroGrad; EvBackward; EvOptimizerStep].

Definition epoch_events (num_iter : nat) (epoch : nat) : list event :=
  flat_map (batch_events (Z.of_nat epoch) (Z.of_nat num_iter)) (seq 0 num_iter).

(** The arguments the scheduler was stepped with, in order. *)
Definition scheduler_args (tr : list event) : list Q :=
  flat_map (fun e => match e with EvSchedulerStep x => [x] | _ => [] end) tr.

Definition save_events (output_path : option string) : list event :=
  match output_path with Some p => [EvSave p] | None => [] end.

End SpecDefs.

(** Exceptions a computation can raise, and the invariant that makes the
    regularization defined. *)
Section Hoare.
Context {TT : TorchTypes} {TO : TorchOps}.

Definition raises_only {A} (P : exn -> Prop) (c : M A) : Prop :=
  forall h e h', c h = (Raise e, h') -> P e.

(** The exceptions that can leave the epoch loop: a zero dataset size, a
    regularization term that is switched on but not defined, or a backward
    pass through a tensor that was modified in place. *)
Definition loop_exn (e : exn) : Prop :=
  e = ZeroDivisionError \/ e = IndexError \/ e = AttributeError \/ e = TypeError \/
  e = RuntimeError backward_msg.

(** The exception of [torch.save(_, p)]. *)
Definition save_exn (p : string) (e : exn) : Prop :=
  e = RuntimeError (save_msg p).


End Hoare.

(** The sentinel [best_val_loss] starts from. *)
Definition sentinel : Q := 1.0e6.

(** * The trials of the tuners, declaratively *)

Section Trials.
Context {TT : TorchTypes} {TO : TorchOps} {ES : EarlyStoppingT}.

Variable dataloaders : dataloaders_t.
Variable datasets_len : datasets_len_t.
Variable criterion : tensor -> tensor -> Q.
Variable nepochs : Z.

(** The heap one trial of [tune_L1] starts [train_val] from: the layers of
    the model are reset, the optimizer is the one the previous trial left,
    there is no scheduler. *)
Definition L1_trial_start (h : heap) : heap :=
  {| h_model := module_apply weight_reset (h_model h); h_optim := h_optim h;
     h_sched := None; h_fs := h_fs h; h_trace := h_trace h |}.

(** The caller's heap after a trial that ended in [h1]. *)
Definition L1_trial_end (h h1 : heap) : heap :=
  {| h_model := h_model h1; h_optim := h_optim h1; h_sched := h_sched h;
     h_fs := h_fs h1; h_trace := h_trace h1 |}.

(** [L1_trials l1_lambdas h losses h']: running one trial per strength, in
    order and from heap [h], records the best validation losses [losses]
    and ends in heap [h']. *)
Inductive L1_trials : list Q -> heap -> list Q -> heap -> Prop :=
| L1_trials_nil (h : heap) : L1_trials [] h [] h
| L1_trials_cons (l1_lambda : Q) (rest : list Q) (h h1 h' : heap)
    (tl vl : list Q) (b : Q) (losses : list Q) :
    train_val dataloaders datasets_len criterion nepochs None
      l1_lambda 1.0e-6 true false (L1_trial_start h) = (Ok (tl, vl, b), h1) ->
    L1_trials rest (L1_trial_end h h1) losses h' ->
    L1_trials (l1_lambda :: rest) h (b :: losses) h'.

Variable structure_t : Type.
Variable DNN : structure_t -> module.
Variable adamw_kw : adamw_kw_t.




(** What the epoch loop maintains about the checkpoint: once
    [best_val_loss] is below the sentinel [1.0e6], the kept weights are
    those of a module whose validation loss it is. *)
Definition checkpoint_inv (v : locals) : Prop :=
  best_val_loss v < 1.0e6 ->
  exists w,
    best_model_wts v = Some w /\
    forall m, fc m = w -> training m = false ->
      py_div (eval_sum criterion m (dataloader dataloaders valid) 0)
        (dataset_len datasets_len valid) = Ok (best_val_loss v).

(** [b] is at position [i] of [losses], no element of [losses] is smaller
    and no earlier one is as small. *)
Definition first_minimum (losses : list Q) (i : nat) (b : Q) : Prop :=
  nth_error losses i = Some b /\
  (forall j c, nth_error losses j = Some c -> b <= c) /\
  (forall j c, (j < i)%nat -> nth_error losses j = Some c -> b < c).

End Trials.

(** The exponents of [np.logspace(-6, 0, 10)]. *)
Definition l1_exponents : list Q :=
  [-6; -16 # 3; -14 # 3; -4; -10 # 3; -8 # 3; -2; -4 # 3; -2 # 3; 0].

(** * Concrete runs on the scalar PyTorch, with the early-stopping monitor
    of section 4.2 *)
Module Examples.

Definition tv (tr va : list (Q * Q)) (ntr nva : Z) (nepochs : Z)
    (output_path : option string) (L1lambda : Q) (L1norm : bool)
    (h : heap) : result (list Q * list Q * Q) * heap :=
  train_val (TO := Toy.ops) (ES := EarlyStopping_spec)
    (Toy.loaders tr va) (Toy.sizes ntr nva) Toy.mse nepochs output_path
    L1lambda 1.0e-6 L1norm false h.

(** Validation target [5]: the validation losses are [9; 1; 1; 9]. *)
Definition improving : result (list Q * list Q * Q) * heap :=
  tv [(0, 1); (1, 1)] [(0, 5)] 2 1 4 (Some "/out/model.pt"%string) 1.0e-3 true
    (Toy.heap0 0 (Some [])).

(** Validation target [2000]: every validation loss is above [1.0e6]. *)
Definition above_sentinel : result (list Q * list Q * Q) * heap :=
  tv [(0, 1)] [(0, 2000)] 1 1 2 (Some "/out/model.pt"%string) 1.0e-3 false
    (Toy.heap0 0 None).

(** Validation target [0]: the validation loss grows from the first epoch
    on, and the monitor stops the loop. *)
Definition stopped_early : result (list Q * list Q * Q) * heap :=
  tv [(0, 1)] [(0, 0)] 1 1 15 None 1.0e-3 false (Toy.heap0 0 None).


Definition zero_epochs : result (list Q * list Q * Q) * heap :=
  tv [(0, 1)] [(0, 3)] 1 1 0 (Some "/out/model.pt"%string) 1.0e-3 false
    (Toy.heap0 5 None).

(** [output_path] is the directory [/out] itself. *)
Definition zero_epochs_onto_directory : result (list Q * list Q * Q) * heap :=
  tv [(0, 1)] [(0, 3)] 1 1 0 (Some "/out"%string) 1.0e-3 false
    (Toy.heap0 5 None).

End Examples.

(** * Frames: what a computation leaves alone *)

Section Frames.
Context {TT : TorchTypes} {TO : TorchOps}.

(** Whatever its outcome, [c] relates the heap it starts from to the heap
    it ends in by [R]. *)
Definition preserves {A} (R : heap -> heap -> Prop) (c : M A) : Prop :=
  forall h r h', c h = (r, h') -> R h h'.

(** Only the model may differ. *)
Definition only_model_changed (h h' : heap) : Prop :=
  h_optim h' = h_optim h /\ h_sched h' = h_sched h /\
  h_fs h' = h_fs h /\ h_trace h' = h_trace h.

Definition same_fs (h h' : heap) : Prop := h_fs h' = h_fs h.

(** No scheduler on entry: none on exit, and none was stepped. *)
Definition no_scheduler_kept (h h' : heap) : Prop :=
  h_sched h = None ->
  h_sched h' = None /\ scheduler_args (h_trace h') = scheduler_args (h_trace h).

End Frames.

(** The number of [optimizer.step()] calls in a trace. *)
Definition optimizer_steps (tr : list event) : nat :=
  List.length (filter (fun e => match e with EvOptimizerStep => true | _ => false end) tr).

(** * Observing the scheduler *)

Section Observation.
Context {TT : TorchTypes} {TO : TorchOps}.

Variable A : Type.
Variable obs : scheduler -> optimizer -> A.
Variable upd : Q -> A -> A.

(** [obs] is something one can read off the scheduler and the optimizer it
    drives, such as the scheduler's epoch counter or the learning rate it
    has set, which [scheduler.step(x)] changes by [upd x] and
    [optimizer.step()] leaves alone. *)
Record observes : Prop := {
  obs_sched_step : forall x sc o,
    obs (fst (sched_step x sc o)) (snd (sched_step x sc o)) = upd x (obs sc o);
  obs_opt_step : forall sc o m, obs sc (fst (opt_step o m)) = obs sc o;
}.

(** From [h] to [h'] the trace has grown by some calls, and what is
    observed has changed as the [scheduler.step] calls among them say. *)
Definition advances (h h' : heap) : Prop :=
  exists t,
    h_trace h' = h_trace h ++ t /\
    forall sc, h_sched h = Some sc ->
      exists sc',
        h_sched h' = Some sc' /\
        obs sc' (h_optim h') =
          fold_left (fun a x => upd x a) (scheduler_args t) (obs sc (h_optim h)).

End Observation.

Arguments observes {TT TO A}.
Arguments advances {TT A}.
Arguments obs_sched_step {TT TO A}.
Arguments obs_opt_step {TT TO A}.

(** * The regularization terms, in closed form *)

Section RegularizationTerms.
Context {TT : TorchTypes} {TO : TorchOps}.

(** [||model.fc[0].weight||_1], zero when there is no such weight. *)
Definition first_weight_norm1 (m : module) : Q :=
  match fc m with
  | l0 :: _ => match weight l0 with Some W => norm1 W | None => 0 end
  | [] => 0
  end.

(** The sum of [||W||_2] over [model.parameters()]. *)
Definition norm2_sum (m : module) : Q :=
  fold_right (fun W acc => norm2 W + acc) 0 (parameters m).

End RegularizationTerms.

(** * What the tuners leave alone *)

Section TunerFrameDefs.
Context {TT : TorchTypes} {TO : TorchOps}.

(** Model, optimizer, scheduler and file system are the same. *)
Definition same_objects (h h' : heap) : Prop :=
  h_model h' = h_model h /\ h_optim h' = h_optim h /\
  h_sched h' = h_sched h /\ h_fs h' = h_fs h.

(** File system and scheduler binding are the same. *)
Definition same_fs_sched (h h' : heap) : Prop :=
  h_fs h' = h_fs h /\ h_sched h' = h_sched h.

End TunerFrameDefs.

(** * [sysnet/sources/utils.py]: the logger *)

Module Logging.

(** The levels of the [logging] module. *)
Inductive level : Type := NOTSET | DEBUG | INFO | WARNING | ERROR | CRITICAL.

Record formatter : Type := {
  fmt : string;
  datefmt : option string;
}.

(** A handler, with the formatter [setFormatter] gave it. *)
Inductive handler : Type :=
| FileHandler (filename : string) (f : option formatter)
| StreamHandler (f : option formatter).

(** The root logger [logging.getLogger()] returns. *)
Record logger : Type := {
  lg_level : level;
  handlers : list handler;
}.

Definition setLevel (l : level) (lg : logger) : logger :=
  {| lg_level := l; handlers := handlers lg |}.

Definition addHandler (hd : handler) (lg : logger) : logger :=
  {| lg_level := lg_level lg; handlers := handlers lg ++ [hd] |}.

Definition file_formatter : formatter :=
  {| fmt := "%(asctime)s:%(levelname)s: %(message)s"; datefmt := Some "%m-%d %H:%M "%string |}.

Definition stream_formatter : formatter :=
  {| fmt := "%(message)s"; datefmt := None |}.

(** [set_logger(log_path)].  [can_open] tells which files
    [logging.FileHandler] can open for appending; opening another one
    raises. *)
Definition set_logger (can_open : string -> bool) (log_path : option string)
    (root : logger) : result unit * logger :=
  let logger := setLevel INFO root in
  match handlers logger with
  | [] =>
      let after_file :=
        match log_path with
        | Some p =>
            if can_open p
            then Ok (addHandler (FileHandler p (Some file_formatter)) logger)
            else Raise FileNotFoundError
        | None => Ok logger
        end in
      match after_file with
      | Ok logger => (Ok tt, addHandler (StreamHandler (Some stream_formatter)) logger)
      | Raise e => (Raise e, logger)
      end
  | _ :: _ => (Ok tt, logger)
  end.

End Logging.

(** * [sysnet/init_sysnet.py]: the paths derived from [output_path] *)

(** [s.startswith(old)] *)
Fixpoint is_prefix (old s : list ascii) : bool :=
  match old, s with
  | [], _ => true
  | _ :: _, [] => false
  | a :: old', c :: s' => Ascii.eqb a c && is_prefix old' s'
  end.

(** [old in s] *)
Fixpoint occurs_in (old s : list ascii) : bool :=
  is_prefix old s ||
  match s with
  | [] => false
  | _ :: s' => occurs_in old s'
  end.

(** [str.replace] for a non-empty [old]: the occurrences are replaced from
    left to right, without overlap.  [skip] counts the characters of a
    replaced occurrence that are still to be passed over. *)
Fixpoint replace_from (old new : list ascii) (skip : nat) (s : list ascii)
    : list ascii :=
  match s with
  | [] => []
  | c :: rest =>
      match skip with
      | S k => replace_from old new k rest
      | O =>
          if is_prefix old s
          then new ++ replace_from old new (List.length old - 1) rest
          else c :: replace_from old new 0 rest
      end
  end.

(** [s.replace(old, new)]; an empty [old] matches before every character
    and at the end. *)
Definition str_replace (old new s : string) : string :=
  let o := list_ascii_of_string old in
  let n := list_ascii_of_string new in
  let l := list_ascii_of_string s in
  string_of_list_ascii
    (match o with
     | [] => n ++ flat_map (fun c => c :: n) l
     | _ :: _ => replace_from o n 0 l
     end).

(** The characters of ['.pt']. *)
Definition dot_pt : list ascii := list_ascii_of_string ".pt".

(** ['%d' % n] *)
Definition format_d (n : nat) : string :=
  NilEmpty.string_of_uint (Nat.to_uint n).

Module Paths.

(** [SYSNet.__init__]: [ns.output_path.replace('.pt', '.log')] *)
Definition log_path (output_path : string) : string :=
  str_replace ".pt" ".log" output_path.

(** [SYSNet.run]: [output_path_org.replace('.pt', '_%d.pt'%partition)] *)
Definition partition_path (output_path : string) (partition : nat) : string :=
  str_replace ".pt" ("_" ++ format_d partition ++ ".pt") output_path.

End Paths.

(** * Properties *)

(** ** Comparison and minimum *)

Lemma Qltb_lt (x y : Q) : Qltb x y = true <-> x < y.
Proof. unfold Qltb, Qlt. apply Z.ltb_lt. Qed.

Lemma Qltb_ge (x y : Q) : Qltb x y = false <-> y <= x.
Proof. unfold Qltb, Qle. rewrite Z.ltb_ge. reflexivity. Qed.

Lemma min_step_le_l (b v : Q) : min_step b v <= b.
Proof.
  unfold min_step. destruct (Qltb v b) eqn:E.
  - apply Qltb_lt in E. apply Qlt_le_weak, E.
  - apply Qle_refl.
Qed.

Lemma min_step_le_r (b v : Q) : min_step b v <= v.
Proof.
  unfold min_step. destruct (Qltb v b) eqn:E.
  - apply Qle_refl.
  - apply Qltb_ge in E. exact E.
Qed.

Lemma fold_min_le_init (l : list Q) (b : Q) : fold_left min_step l b <= b.
Proof.
  revert b. induction l as [|v l IH]; intros b; simpl.
  - apply Qle_refl.
  - eapply Qle_trans; [apply IH | apply min_step_le_l].
Qed.

Lemma fold_min_le_elem (l : list Q) (b v : Q) :
  In v l -> fold_left min_step l b <= v.
Proof.
  revert b. induction l as [|w l IH]; intros b Hin; simpl.
  - destruct Hin.
  - destruct Hin as [-> | Hin].
    + eapply Qle_trans; [apply fold_min_le_init | apply min_step_le_r].
    + apply IH, Hin.
Qed.

Lemma fold_min_in (l : list Q) (b : Q) :
  fold_left min_step l b = b \/ In (fold_left min_step l b) l.
Proof.
  revert b. induction l as [|w l IH]; intros b; simpl.
  - left; reflexivity.
  - destruct (IH (min_step b w)) as [E | Hin].
    + rewrite E. unfold min_step. destruct (Qltb w b); auto.
    + right; right; exact Hin.
Qed.

(** When some element is below the starting value [b], any larger starting
    value gives the same minimum. *)
Lemma fold_min_start (l : list Q) (b c : Q) :
  (exists v, In v l /\ v < b) -> b <= c ->
  fold_left min_step l b = fold_left min_step l c.
Proof.
  revert b c. induction l as [|w l IH]; intros b c [v [Hin Hv]] Hbc.
  - destruct Hin.
  - simpl. unfold min_step at 2 4.
    destruct (Qltb w b) eqn:Eb; destruct (Qltb w c) eqn:Ec.
    + reflexivity.
    + apply Qltb_lt in Eb. apply Qltb_ge in Ec.
      exfalso. apply (Qlt_irrefl w). eapply Qlt_le_trans; [exact Eb|].
      eapply Qle_trans; eassumption.
    + apply Qltb_ge in Eb. apply Qltb_lt in Ec.
      destruct Hin as [-> | Hin].
      * exfalso. apply (Qlt_irrefl v). apply (Qlt_le_trans v b v); assumption.
      * apply IH; [exists v; split; assumption | exact Eb].
    + destruct Hin as [-> | Hin].
      * apply Qltb_ge in Eb. exfalso. apply (Qlt_irrefl v).
        apply (Qlt_le_trans v b v); assumption.
      * apply IH; [exists v; split; assumption | exact Hbc].
Qed.

(** ** Regularization *)

Section Regularization.
Context {TT : TorchTypes} {TO : TorchOps}.

Hypothesis norm1_nonneg : forall W, 0 <= norm1 W.
Hypothesis norm2_nonneg : forall W, 0 <= norm2 W.

Lemma l2_accumulate_nonneg (ps : list tensor) (acc : option (Q * bool))
    (r : Q) (b : bool) :
  (forall a b0, acc = Some (a, b0) -> 0 <= a) ->
  fold_left l2_accumulate ps acc = Some (r, b) -> 0 <= r.
Proof.
  revert acc. induction ps as [|W ps IH]; intros acc Hacc Hfold; simpl in Hfold.
  - eapply Hacc, Hfold.
  - refine (IH _ _ Hfold). intros a b0 Ha.
    destruct acc as [[a0 b1]|]; simpl in Ha; injection Ha as <- _.
    + specialize (Hacc a0 b1 eq_refl). pose proof (norm2_nonneg W). lra.
    + apply norm2_nonneg.
Qed.

Lemma l2_accumulate_some (ps : list tensor) (acc : option (Q * bool)) :
  acc <> None \/ ps <> [] -> fold_left l2_accumulate ps acc <> None.
Proof.
  revert acc. induction ps as [|W ps IH]; intros acc H; simpl.
  - destruct H as [H | H]; [exact H | congruence].
  - apply IH. left. destruct acc as [[a b]|]; simpl; discriminate.
Qed.

Lemma has_first_weight_parameters (m : module) :
  has_first_weight m -> parameters m <> [].
Proof.
  unfold has_first_weight, parameters.
  destruct (fc m) as [|l0 ls]; [tauto|]. intros Hw. simpl.
  unfold layer_parameters. destruct (weight l0); [discriminate | congruence].
Qed.

Lemma add_regularization_total (model : module) (loss : loss_t)
    (L1norm L2norm : bool) (L1lambda L2lambda : Q) :
  has_first_weight model ->
  if leaf_requires_grad loss && (L1norm || L2norm)
  then add_regularization model loss L1norm L2norm L1lambda L2lambda
       = Raise (RuntimeError inplace_msg)
  else exists loss',
         add_regularization model loss L1norm L2norm L1lambda L2lambda = Ok loss' /\
         leaf_requires_grad loss' = leaf_requires_grad loss && negb (L1norm || L2norm) /\
         (L2norm = false -> saved_modified loss' = saved_modified loss).
Proof.
  intros Hw. pose proof (has_first_weight_parameters _ Hw) as Hp.
  unfold add_regularization, loss_iadd. unfold has_first_weight in Hw.
  destruct (fc model) as [|l0 ls] eqn:Efc; [tauto|].
  destruct (weight l0) as [W|] eqn:EW; [|congruence].
  destruct (fold_left l2_accumulate (parameters model) None) as [[r m]|] eqn:E.
  2:{ exfalso. revert E. apply l2_accumulate_some. right. exact Hp. }
  destruct (leaf_requires_grad loss) eqn:El, L1norm, L2norm; cbn;
    rewrite ?El; cbn; try reflexivity;
    (eexists; split; [reflexivity|]; cbn; rewrite ?El, ?orb_false_r;
     split; [reflexivity | intros; congruence]).
Qed.

(** C4, as amended: with non-negative regularization strengths the loss
    [add_regularization] returns is at least the base loss, for each of the
    four settings of the flags [(L1norm, L2norm)].  Whenever
    [model.fc[0].weight] exists it does return a loss, unless a term is
    switched on and the base loss is a leaf tensor that requires grad, on
    which [loss += ...] raises. *)
Theorem add_regularization_ge_base (model : module) (loss : loss_t)
    (L1norm L2norm : bool) (L1lambda L2lambda : Q) :
  0 <= L1lambda -> 0 <= L2lambda ->
  (forall loss',
      add_regularization model loss L1norm L2norm L1lambda L2lambda = Ok loss' ->
      item loss <= item loss') /\
  (has_first_weight model ->
   if leaf_requires_grad loss && (L1norm || L2norm)
   then add_regularization model loss L1norm L2norm L1lambda L2lambda
        = Raise (RuntimeError inplace_msg)
   else exists loss',
          add_regularization model loss L1norm L2norm L1lambda L2lambda = Ok loss').
Proof.
  intros H1 H2. split.
  2:{ intros Hw.
      pose proof (add_regularization_total model loss L1norm L2norm
                    L1lambda L2lambda Hw) as Ht.
      destruct (leaf_requires_grad loss && (L1norm || L2norm)); [exact Ht|].
      destruct Ht as (loss' & E & _). exists loss'. exact E. }
  intros loss'. unfold add_regularization, loss_iadd.
  assert (Hl1 : forall W, 0 <= L1lambda * norm1 W)
    by (intros W; apply Qmult_le_0_compat; [exact H1 | apply norm1_nonneg]).
  assert (Hl2 : forall r m,
             fold_left l2_accumulate (parameters model) None = Some (r, m) ->
             0 <= L2lambda * r).
  { intros r m Hr. apply Qmult_le_0_compat; [exact H2|].
    eapply l2_accumulate_nonneg; [|exact Hr]. discriminate. }
  destruct (leaf_requires_grad loss) eqn:El.
  - destruct L1norm.
    + destruct (fc model) as [|l0 ls]; [discriminate|].
      destruct (weight l0) as [W|]; discriminate.
    + destruct L2norm.
      * destruct (fold_left l2_accumulate (parameters model) None) as [[r m]|];
          [rewrite El|]; discriminate.
      * intros [= <-]. apply Qle_refl.
  - destruct L1norm.
    + destruct (fc model) as [|l0 ls]; [discriminate|].
      destruct (weight l0) as [W|]; [|discriminate].
      specialize (Hl1 W).
      destruct L2norm.
      * destruct (fold_left l2_accumulate (parameters model) None) as [[r m]|] eqn:E;
          [|discriminate].
        specialize (Hl2 r m eq_refl). cbn. intros [= <-]. cbn. lra.
      * intros [= <-]. cbn. lra.
    + destruct L2norm.
      * destruct (fold_left l2_accumulate (parameters model) None) as [[r m]|] eqn:E;
          [|discriminate].
        specialize (Hl2 r m eq_refl). rewrite El. intros [= <-]. cbn. lra.
      * intros [= <-]. apply Qle_refl.
Qed.

End Regularization.

(** C4 at a concrete model: first-layer weight [-3], strengths [1/2] and
    [2], both norms switched on, on the loss [5] of a criterion. *)
Lemma add_regularization_ge_base_witness :
  0 <= 1 # 2 /\ 0 <= 2 /\
  (forall loss',
      add_regularization (TO := Toy.ops) (Toy.net (-3)) (criterion_loss 5)
        true true (1 # 2) 2 = Ok loss' ->
      5 <= item loss').
Proof.
  split; [lra|]. split; [lra|].
  apply (add_regularization_ge_base (TO := Toy.ops) Qabs_nonneg Qabs_nonneg
           (Toy.net (-3)) (criterion_loss 5) true true (1 # 2) 2); lra.
Defined.

(** C4 as stated fails: with a negative L1 strength the returned loss is
    below the base loss although both norms are non-negative. *)
Lemma add_regularization_negative_lambda :
  (forall W, 0 <= norm1 (TorchOps := Toy.ops) W) /\
  (forall W, 0 <= norm2 (TorchOps := Toy.ops) W) /\
  exists loss',
    add_regularization (TO := Toy.ops) (Toy.net 2) (criterion_loss 0)
      true false (-1) 1 = Ok loss' /\
    ~ 0 <= item loss'.
Proof.
  split; [exact Qabs_nonneg|]. split; [exact Qabs_nonneg|].
  eexists. split; [reflexivity|].
  intros H. vm_compute in H. apply H. reflexivity.
Qed.

(** ** The monad *)

Section MonadLaws.
Context {TT : TorchTypes} {TO : TorchOps}.


Lemma bind_raise {A B} (c : M A) (k : A -> M B) h e h1 :
  c h = (Raise e, h1) -> bind c k h = (Raise e, h1).
Proof. unfold bind. intros ->. reflexivity. Qed.

Lemma bind_ok_inv {A B} (c : M A) (k : A -> M B) h b h' :
  bind c k h = (Ok b, h') ->
  exists a h1, c h = (Ok a, h1) /\ k a h1 = (Ok b, h').
Proof.
  unfold bind. destruct (c h) as [[a|e] h1]; intros H.
  - exists a, h1. split; [reflexivity | exact H].
  - discriminate.
Qed.

Lemma bind_raise_inv {A B} (c : M A) (k : A -> M B) h e h' :
  bind c k h = (Raise e, h') ->
  c h = (Raise e, h') \/ exists a h1, c h = (Ok a, h1) /\ k a h1 = (Raise e, h').
Proof.
  unfold bind. destruct (c h) as [[a|e0] h1]; intros H.
  - right. exists a, h1. split; [reflexivity | exact H].
  - left. injection H as <- <-. reflexivity.
Qed.

Lemma lift_ok_inv {A} (r : result A) h a h' :
  lift r h = (Ok a, h') -> r = Ok a /\ h' = h.
Proof. destruct r; simpl; unfold ret, raise; intros [= ]; subst; auto. Qed.

End MonadLaws.

(** ** The file system *)

Section FileSystem.
Context {TT : TorchTypes} {TO : TorchOps}.

Lemma torch_save_ok (w : weights) (p : string) (fs : filesystem) :
  can_write fs p = true -> torch_save w p fs = Ok (write_file w p fs).
Proof. unfold torch_save. intros ->. reflexivity. Qed.

Lemma torch_save_ok_inv (w : weights) (p : string) (fs fs' : filesystem) :
  torch_save w p fs = Ok fs' -> can_write fs p = true /\ fs' = write_file w p fs.
Proof.
  unfold torch_save. destruct (can_write fs p); [|discriminate].
  intros [= <-]. auto.
Qed.

Lemma torch_save_raise_inv (w : weights) (p : string) (fs : filesystem) (e : exn) :
  torch_save w p fs = Raise e -> can_write fs p = false /\ save_exn p e.
Proof.
  unfold torch_save, save_exn. destruct (can_write fs p); [discriminate|].
  intros [= <-]. auto.
Qed.

Lemma write_file_same (w : weights) (p : string) (fs : filesystem) :
  write_file w p fs p = Some (File w).
Proof. unfold write_file. rewrite String.eqb_refl. reflexivity. Qed.

Lemma write_file_other (w : weights) (p q : string) (fs : filesystem) :
  q <> p -> write_file w p fs q = fs q.
Proof. unfold write_file. intros H. apply String.eqb_neq in H. rewrite H. reflexivity. Qed.

End FileSystem.

Section Save.
Context {TT : TorchTypes} {TO : TorchOps}.

Lemma save_ok_inv (w : weights) (p : string) (h h' : heap) (u : unit) :
  save w p h = (Ok u, h') ->
  can_write (h_fs h) p = true /\
  h' = {| h_model := h_model h; h_optim := h_optim h; h_sched := h_sched h;
          h_fs := write_file w p (h_fs h); h_trace := h_trace h ++ [EvSave p] |}.
Proof.
  unfold save. destruct (torch_save w p (h_fs h)) as [fs'|e] eqn:E; [|discriminate].
  apply torch_save_ok_inv in E as [Hw ->]. intros [= <-]. auto.
Qed.

End Save.

(** ** Frames *)

Section FrameLemmas.
Context {TT : TorchTypes} {TO : TorchOps} {ES : EarlyStoppingT}.

Section Generic.
Variable R : heap -> heap -> Prop.
Hypothesis R_refl : forall h, R h h.
Hypothesis R_trans : forall h1 h2 h3, R h1 h2 -> R h2 h3 -> R h1 h3.

Lemma preserves_ret {A} (a : A) : preserves R (ret a).
Proof. intros h r h' [= _ <-]. apply R_refl. Qed.

Lemma preserves_raise {A} (e : exn) : preserves R (@raise _ A e).
Proof. intros h r h' [= _ <-]. apply R_refl. Qed.

Lemma preserves_lift {A} (r : result A) : preserves R (lift r).
Proof. destruct r; [apply preserves_ret | apply preserves_raise]. Qed.

Lemma preserves_get_model : preserves R get_model.
Proof. intros h r h' [= _ <-]. apply R_refl. Qed.

Lemma preserves_bind {A B} (c : M A) (k : A -> M B) :
  preserves R c -> (forall a, preserves R (k a)) -> preserves R (bind c k).
Proof.
  intros Hc Hk h r h'. unfold bind.
  destruct (c h) as [[a|e] h1] eqn:E; intros H.
  - eapply R_trans; [eapply Hc, E | eapply Hk, H].
  - injection H as _ <-. eapply Hc, E.
Qed.

(** The steps of the validation and evaluation passes. *)
Hypothesis R_model : forall h m,
  R h {| h_model := m; h_optim := h_optim h; h_sched := h_sched h;
         h_fs := h_fs h; h_trace := h_trace h |}.

Lemma preserves_model_train : preserves R model_train.
Proof. intros h r h' [= _ <-]. apply R_model. Qed.

Lemma preserves_model_eval : preserves R model_eval.
Proof. intros h r h' [= _ <-]. apply R_model. Qed.

Lemma preserves_model_call (data : tensor) : preserves R (model_call data).
Proof.
  intros h r h'. unfold model_call. destruct (forward (h_model h) data).
  intros [= _ <-]. apply R_model.
Qed.

Lemma preserves_valid_batches (criterion : tensor -> tensor -> Q) (batches : list batch) :
  forall running, preserves R (valid_batches criterion batches running).
Proof.
  induction batches as [|[data target] rest IH]; intros running.
  - apply preserves_ret.
  - cbn [valid_batches]. apply preserves_bind; [apply preserves_model_call|].
    intros outputs. apply IH.
Qed.

Lemma preserves_evaluate_batches (criterion : tensor -> tensor -> Q)
    (batches : list batch) :
  forall loss, preserves R (evaluate_batches criterion batches loss).
Proof.
  induction batches as [|[data target] rest IH]; intros loss.
  - apply preserves_ret.
  - cbn [evaluate_batches]. apply preserves_bind; [apply preserves_model_call|].
    intros outputs. apply IH.
Qed.

Lemma preserves_evaluate dataloaders datasets_len criterion phase :
  preserves R (evaluate dataloaders datasets_len criterion phase).
Proof.
  unfold evaluate. apply preserves_bind; [apply preserves_model_eval|]. intros _.
  apply preserves_bind; [apply preserves_evaluate_batches|]. intros loss.
  destruct loss; [apply preserves_ret|].
  destruct (dataset_len datasets_len phase =? 0)%Z; apply preserves_raise.
Qed.

End Generic.

Lemma only_model_changed_refl (h : heap) : only_model_changed h h.
Proof. unfold only_model_changed. auto. Qed.

Lemma only_model_changed_trans (h1 h2 h3 : heap) :
  only_model_changed h1 h2 -> only_model_changed h2 h3 -> only_model_changed h1 h3.
Proof.
  unfold only_model_changed. intros (A1 & A2 & A3 & A4) (B1 & B2 & B3 & B4).
  repeat split; congruence.
Qed.

End FrameLemmas.

(** ** Frames of the epoch loop *)

Section LoopFrames.
Context {TT : TorchTypes} {TO : TorchOps} {ES : EarlyStoppingT}.

Variable dataloaders : dataloaders_t.
Variable datasets_len : datasets_len_t.
Variable criterion : tensor -> tensor -> Q.
Variable output_path : option string.
Variables L1lambda L2lambda : Q.
Variables L1norm L2norm : bool.

Section Generic.
Variable R : heap -> heap -> Prop.
Hypothesis R_refl : forall h, R h h.
Hypothesis R_trans : forall h1 h2 h3, R h1 h2 -> R h2 h3 -> R h1 h3.
Hypothesis R_model : forall h m,
  R h {| h_model := m; h_optim := h_optim h; h_sched := h_sched h;
         h_fs := h_fs h; h_trace := h_trace h |}.
Hypothesis R_zero_grad : forall h, R h (snd (optimizer_zero_grad h)).
Hypothesis R_backward : forall loss h, R h (snd (loss_backward loss h)).
Hypothesis R_opt_step : forall h, R h (snd (optimizer_step h)).
Hypothesis R_sched : forall h sc x,
  h_sched h = Some sc -> R h (snd (scheduler_step sc x h)).

Lemma preserves_train_batches (epoch num_iter : Z) (batches : list batch) :
  forall i running,
    preserves R (train_batches criterion L1norm L2norm L1lambda L2lambda
                   epoch num_iter batches i running).
Proof.
  induction batches as [|[data target] rest IH]; intros i running.
  - apply preserves_ret, R_refl.
  - cbn [train_batches]. apply preserves_bind; [exact R_trans| |].
    { intros h r h'. destruct (h_sched h) as [sc|] eqn:Es.
      - unfold bind. destruct (scheduler_step sc _ h) as [[u|e] h1] eqn:E.
        + intros [= _ <-]. change h1 with (snd (Ok u, h1)). rewrite <- E.
          apply R_sched, Es.
        + intros [= _ <-]. change h1 with (snd (@Raise unit e, h1)). rewrite <- E.
          apply R_sched, Es.
      - intros [= _ <-]. apply R_refl. }
    intros i'. apply preserves_bind; [exact R_trans| |].
    { intros h r h' E. change h' with (snd (r, h')). rewrite <- E.
      apply R_zero_grad. }
    intros _. apply preserves_bind;
      [exact R_trans | apply preserves_model_call, R_model |].
    intros outputs. apply preserves_bind;
      [exact R_trans | apply preserves_get_model, R_refl |].
    intros model. apply preserves_bind;
      [exact R_trans | apply preserves_lift, R_refl |].
    intros loss. apply preserves_bind; [exact R_trans| |].
    { intros h r h' E. change h' with (snd (r, h')). rewrite <- E.
      apply R_backward. }
    intros _. apply preserves_bind; [exact R_trans| |].
    { intros h r h' E. change h' with (snd (r, h')). rewrite <- E.
      apply R_opt_step. }
    intros _. apply IH.
Qed.

Lemma preserves_epoch_body (num_iter epoch : Z) (v : locals) :
  preserves R (epoch_body dataloaders datasets_len criterion output_path
                 L1lambda L2lambda L1norm L2norm num_iter epoch v).
Proof.
  unfold epoch_body.
  apply preserves_bind; [exact R_trans | apply preserves_model_train, R_model |].
  intros _. apply preserves_bind; [exact R_trans | apply preserves_train_batches |].
  intros ir. apply preserves_bind; [exact R_trans | apply preserves_lift, R_refl |].
  intros lt. apply preserves_bind;
    [exact R_trans | apply preserves_model_eval, R_model |].
  intros _. apply preserves_bind;
    [exact R_trans | apply preserves_valid_batches; assumption |].
  intros rv. apply preserves_bind; [exact R_trans | apply preserves_lift, R_refl |].
  intros lv. apply preserves_bind;
    [exact R_trans | apply preserves_get_model, R_refl |].
  intros model. apply preserves_ret, R_refl.
Qed.

Lemma preserves_epoch_loop (num_iter : Z) (epochs : list Z) :
  forall v,
    preserves R (epoch_loop dataloaders datasets_len criterion output_path
                   L1lambda L2lambda L1norm L2norm num_iter epochs v).
Proof.
  induction epochs as [|epoch rest IH]; intros v.
  - apply preserves_ret, R_refl.
  - cbn [epoch_loop].
    apply preserves_bind; [exact R_trans | apply preserves_epoch_body |].
    intros v'. destruct (early_stop (early_stopping v')).
    + apply preserves_ret, R_refl.
    + apply IH.
Qed.

End Generic.

Lemma same_fs_trans (h1 h2 h3 : heap) : same_fs h1 h2 -> same_fs h2 h3 -> same_fs h1 h3.
Proof. unfold same_fs. congruence. Qed.

Lemma epoch_loop_same_fs (num_iter : Z) (epochs : list Z) (v : locals) :
  preserves same_fs (epoch_loop dataloaders datasets_len criterion output_path
                       L1lambda L2lambda L1norm L2norm num_iter epochs v).
Proof.
  apply preserves_epoch_loop.
  - reflexivity.
  - exact same_fs_trans.
  - reflexivity.
  - reflexivity.
  - intros loss h. unfold loss_backward. destruct (saved_modified loss); reflexivity.
  - intros h. unfold optimizer_step. destruct (opt_step _ _). reflexivity.
  - intros h sc x _. unfold scheduler_step. destruct (sched_step _ _ _). reflexivity.
Qed.

End LoopFrames.

(** ** The epoch loop: what it does to the local variables *)

Ltac bind_inv H :=
  let a := fresh "a" in
  let h := fresh "h" in
  let E := fresh "E" in
  apply bind_ok_inv in H; destruct H as (a & h & E & H).

Section EpochLoop.
Context {TT : TorchTypes} {TO : TorchOps} {ES : EarlyStoppingT}.

Variable dataloaders : dataloaders_t.
Variable datasets_len : datasets_len_t.
Variable criterion : tensor -> tensor -> Q.
Variable output_path : option string.
Variables L1lambda L2lambda : Q.
Variables L1norm L2norm : bool.
Variable num_iter : Z.

Lemma epoch_body_locals (epoch : Z) (v v' : locals) (h h' : heap) :
  epoch_body dataloaders datasets_len criterion output_path
    L1lambda L2lambda L1norm L2norm num_iter epoch v h = (Ok v', h') ->
  exists loss_train_epoch loss_valid_epoch,
    train_losses v' = train_losses v ++ [loss_train_epoch] /\
    valid_losses v' = valid_losses v ++ [loss_valid_epoch] /\
    best_val_loss v' = min_step (best_val_loss v) loss_valid_epoch /\
    early_stopping v' = es_call (early_stopping v) loss_valid_epoch.
Proof.
  unfold epoch_body. intros H.
  bind_inv H. bind_inv H. bind_inv H. bind_inv H. bind_inv H. bind_inv H. bind_inv H.
  unfold ret in H. injection H as <- <-.
  exists a1, a4. simpl. unfold min_step. repeat split; reflexivity.
Qed.

Lemma epoch_loop_locals (epochs : list Z) : forall (v v' : locals) (h h' : heap),
  epoch_loop dataloaders datasets_len criterion output_path
    L1lambda L2lambda L1norm L2norm num_iter epochs v h = (Ok v', h') ->
  exists lts lvs,
    train_losses v' = train_losses v ++ lts /\
    valid_losses v' = valid_losses v ++ lvs /\
    length lts = length lvs /\
    (length lvs <= length epochs)%nat /\
    best_val_loss v' = fold_left min_step lvs (best_val_loss v) /\
    early_stopping v' = fold_left es_call lvs (early_stopping v) /\
    (length lvs = length epochs \/ early_stop (early_stopping v') = true) /\
    (forall k, (0 < k < length lvs)%nat ->
       early_stop (fold_left es_call (firstn k lvs) (early_stopping v)) = false).
Proof.
  induction epochs as [|epoch rest IH]; intros v v' h h' H; simpl in H.
  - unfold ret in H. injection H as <- <-. exists [], [].
    rewrite !app_nil_r. simpl. repeat split; auto. intros k Hk; lia.
  - bind_inv H. apply epoch_body_locals in E as (lt & lv & Ht & Hv & Hb & He).
    destruct (early_stop (early_stopping a)) eqn:Estop.
    + unfold ret in H. injection H as <- <-. exists [lt], [lv]. simpl.
      rewrite Ht, Hv, Hb, He. repeat split; auto; try lia.
      right. rewrite <- He. exact Estop.
    + apply IH in H as (lts & lvs & Ht' & Hv' & Hlen & Hle & Hb' & He' & Hstop & Hpre).
      exists (lt :: lts), (lv :: lvs). simpl.
      rewrite Ht', Hv', Hb', He', Ht, Hv, Hb, He, <- !app_assoc. simpl.
      repeat split; auto; try lia.
      * destruct Hstop as [Hs | Hs]; [left; lia | right].
        rewrite He', He in Hs. exact Hs.
      * intros k Hk. destruct k as [|k]; [lia|]. simpl.
        destruct k as [|k].
        -- simpl. rewrite <- He. exact Estop.
        -- rewrite <- He. apply Hpre. simpl. lia.
Qed.

End EpochLoop.

Lemma py_min_below (l : list Q) (s : Q) :
  (exists v, In v l /\ v < s) -> Ok (fold_left min_step l s) = py_min l.
Proof.
  intros (x & Hx & Hlt). destruct l as [|w ws]; [destruct Hx|].
  simpl. f_equal.
  assert (Hm : min_step s w = if Qltb w s then w else s) by reflexivity.
  rewrite Hm. destruct (Qltb w s) eqn:E.
  - reflexivity.
  - apply Qltb_ge in E. apply fold_min_start; [|exact E].
    destruct Hx as [-> | Hx].
    + exfalso. apply (Qlt_irrefl x). apply (Qlt_le_trans x s x); assumption.
    + exists x. split; assumption.
Qed.

(** ** [train_val]: the shape of a successful run *)

Section TrainVal.
Context {TT : TorchTypes} {TO : TorchOps} {ES : EarlyStoppingT}.

Variable dataloaders : dataloaders_t.
Variable datasets_len : datasets_len_t.
Variable criterion : tensor -> tensor -> Q.
Variable nepochs : Z.
Variable output_path : option string.
Variables L1lambda L2lambda : Q.
Variables L1norm L2norm : bool.


Lemma train_val_ok_inv (h h' : heap) (tl vl : list Q) (b : Q) :
  train_val dataloaders datasets_len criterion nepochs output_path
    L1lambda L2lambda L1norm L2norm h = (Ok (tl, vl, b), h') ->
  exists v h1,
    epoch_loop dataloaders datasets_len criterion output_path
      L1lambda L2lambda L1norm L2norm
      (Z.of_nat (length (dataloader dataloaders train))) (py_range nepochs)
      {| train_losses := []; valid_losses := [];
         best_model_wts := match output_path with
                           | Some _ => Some (state_dict (h_model h))
                           | None => None
                           end;
         best_val_loss := 1.0e6;
         early_stopping := EarlyStopping 10 true |} h = (Ok v, h1) /\
    tl = train_losses v /\ vl = valid_losses v /\ b = best_val_loss v /\
    (forall p, output_path = Some p -> os_path_exists (h_fs h) (os_path_dirname p) = true) /\
    (match output_path, best_model_wts v with
     | Some p, Some w => save w p
     | _, _ => ret tt
     end) h1 = (Ok tt, h').
Proof.
  unfold train_val. intros H.
  bind_inv H. bind_inv H. unfold get_model in E0. injection E0 as <- <-.
  bind_inv H. bind_inv H. unfold ret in H. injection H as <- <- <- <-.
  assert (Hh : h0 = h /\ forall p, output_path = Some p ->
                 os_path_exists (h_fs h) (os_path_dirname p) = true).
  { destruct output_path as [p|].
    - destruct (os_path_exists (h_fs h) (os_path_dirname p)) eqn:Ex; simpl in E.
      + unfold ret in E. injection E as _ <-. split; [reflexivity|].
        intros p' [= <-]. exact Ex.
      + discriminate.
    - unfold ret in E. injection E as _ <-. split; [reflexivity | discriminate]. }
  destruct Hh as [-> Hdir].
  exists a0, h1. destruct a1. repeat split; auto.
Qed.

(** C1, as amended: [best_val_loss] is the minimum of the sentinel [1.0e6]
    and the returned validation losses, so it bounds every one of them from
    below; it is [min(valid_losses)] as soon as one validation loss is below
    the sentinel. *)
Theorem best_val_loss_is_min (h h' : heap) (tl vl : list Q) (b : Q) :
  train_val dataloaders datasets_len criterion nepochs output_path
    L1lambda L2lambda L1norm L2norm h = (Ok (tl, vl, b), h') ->
  py_min (sentinel :: vl) = Ok b /\
  (forall v, In v vl -> b <= v) /\
  ((exists v, In v vl /\ v < sentinel) -> py_min vl = Ok b).
Proof.
  intros H. apply train_val_ok_inv in H as (v & h1 & Hloop & -> & -> & -> & _ & _).
  apply epoch_loop_locals in Hloop
    as (lts & lvs & _ & Hv & _ & _ & Hb & _).
  simpl in Hv, Hb. rewrite Hv, Hb. clear Hv Hb. fold sentinel.
  split; [reflexivity|]. split.
  - intros x Hx. apply fold_min_le_elem, Hx.
  - intros Hex. symmetry. apply py_min_below, Hex.
Qed.

End TrainVal.

(** ** [train_val] runs to completion *)

Section Totality.
Context {TT : TorchTypes} {TO : TorchOps} {ES : EarlyStoppingT}.

Variable dataloaders : dataloaders_t.
Variable datasets_len : datasets_len_t.
Variable criterion : tensor -> tensor -> Q.
Variable output_path : option string.
Variables L1lambda L2lambda : Q.
Variable L1norm : bool.

(** The L2 term is switched off throughout: with it, whether the backward
    pass raises depends on the number of parameter tensors. *)

(** Only needed when a regularization term is switched on. *)
Hypothesis kfw : L1norm || false = true -> keeps_first_weight.








End Totality.

(** ** Which exceptions can be raised *)

Section Exceptions.
Context {TT : TorchTypes} {TO : TorchOps} {ES : EarlyStoppingT}.

Lemma raises_only_bind {A B} (P : exn -> Prop) (c : M A) (k : A -> M B) :
  raises_only P c -> (forall a, raises_only P (k a)) -> raises_only P (bind c k).
Proof.
  intros Hc Hk h e h' H. apply bind_raise_inv in H as [H | (a & h1 & _ & H)].
  - eapply Hc, H.
  - eapply Hk, H.
Qed.

Lemma raises_only_ret {A} (P : exn -> Prop) (a : A) : raises_only P (ret a).
Proof. intros h e h' H. discriminate. Qed.

Lemma raises_only_lift {A} (P : exn -> Prop) (r : result A) :
  (forall e, r = Raise e -> P e) -> raises_only P (lift r).
Proof.
  intros Hr h e h' H. destruct r as [a|e0]; [discriminate|].
  injection H as <- _. apply Hr. reflexivity.
Qed.

Ltac never_raises :=
  let h := fresh "h" in let e := fresh "e" in let h' := fresh "h'" in
  let H := fresh "H" in
  intros h e h' H; cbv beta delta [model_train model_eval set_model get_model
    model_call scheduler_step optimizer_zero_grad optimizer_step ret] in H;
  repeat match type of H with
         | context [let (_, _) := ?x in _] => destruct x
         end;
  discriminate H.

Lemma model_train_never (P : exn -> Prop) : raises_only P model_train.
Proof. never_raises. Qed.

Lemma model_eval_never (P : exn -> Prop) : raises_only P model_eval.
Proof. never_raises. Qed.

Lemma get_model_never (P : exn -> Prop) : raises_only P get_model.
Proof. never_raises. Qed.

Lemma set_model_never (P : exn -> Prop) m : raises_only P (set_model m).
Proof. never_raises. Qed.

Lemma model_call_never (P : exn -> Prop) data : raises_only P (model_call data).
Proof. never_raises. Qed.

Lemma scheduler_step_never (P : exn -> Prop) sc x : raises_only P (scheduler_step sc x).
Proof. never_raises. Qed.

Lemma optimizer_zero_grad_never (P : exn -> Prop) : raises_only P optimizer_zero_grad.
Proof. never_raises. Qed.

Lemma loss_backward_exn (loss : loss_t) :
  raises_only (fun e => e = RuntimeError backward_msg) (loss_backward loss).
Proof.
  intros h e h'. unfold loss_backward.
  destruct (saved_modified loss); intros [= <- _]; reflexivity.
Qed.

Lemma optimizer_step_never (P : exn -> Prop) : raises_only P optimizer_step.
Proof. never_raises. Qed.

Lemma save_raises (w : weights) (p : string) : raises_only (save_exn p) (save w p).
Proof.
  intros h e h'. unfold save.
  destruct (torch_save w p (h_fs h)) as [fs'|e0] eqn:E; intros [= <- _].
  apply torch_save_raise_inv in E. apply E.
Qed.

(** On the loss of a criterion the in-place updates are allowed. *)
Lemma add_regularization_exn model value L1norm L2norm L1lambda L2lambda e :
  add_regularization model (criterion_loss value) L1norm L2norm L1lambda L2lambda
    = Raise e ->
  e = IndexError \/ e = AttributeError \/ e = TypeError.
Proof.
  unfold add_regularization, loss_iadd.
  destruct L1norm; [destruct (fc model) as [|l0 ls]; [|destruct (weight l0)]|];
    destruct L2norm; cbn;
    try destruct (fold_left l2_accumulate (parameters model) None) as [[r m]|];
    intros [= <-]; auto.
Qed.

Lemma py_div_exn x n e : py_div x n = Raise e -> e = ZeroDivisionError.
Proof. unfold py_div. destruct (n =? 0)%Z; intros [= <-]; reflexivity. Qed.

Variable dataloaders : dataloaders_t.
Variable datasets_len : datasets_len_t.
Variable criterion : tensor -> tensor -> Q.
Variable output_path : option string.
Variables L1lambda L2lambda : Q.
Variables L1norm L2norm : bool.

Lemma train_batches_exn (epoch num_iter : Z) (batches : list batch) :
  forall i running,
    raises_only loop_exn
      (train_batches criterion L1norm L2norm L1lambda L2lambda epoch num_iter
         batches i running).
Proof.
  induction batches as [|[data target] rest IH]; intros i running.
  - apply raises_only_ret.
  - cbn [train_batches]. apply raises_only_bind.
    { intros h e h'. destruct (h_sched h).
      - apply raises_only_bind; [apply scheduler_step_never | intros; apply raises_only_ret].
      - apply raises_only_ret. }
    intros i'. apply raises_only_bind; [apply optimizer_zero_grad_never|]. intros _.
    apply raises_only_bind; [apply model_call_never|]. intros outputs.
    apply raises_only_bind; [apply get_model_never|]. intros model.
    apply raises_only_bind.
    { apply raises_only_lift. intros e He. apply add_regularization_exn in He.
      unfold loop_exn. tauto. }
    intros loss. apply raises_only_bind.
    { intros h e h' H. apply loss_backward_exn in H. unfold loop_exn. tauto. }
    intros _.
    apply raises_only_bind; [apply optimizer_step_never|]. intros _. apply IH.
Qed.

Lemma valid_batches_exn (P : exn -> Prop) (batches : list batch) :
  forall running, raises_only P (valid_batches criterion batches running).
Proof.
  induction batches as [|[data target] rest IH]; intros running.
  - apply raises_only_ret.
  - cbn [valid_batches]. apply raises_only_bind; [apply model_call_never|].
    intros outputs. apply IH.
Qed.

Lemma epoch_body_exn (num_iter epoch : Z) (v : locals) :
  raises_only loop_exn
    (epoch_body dataloaders datasets_len criterion output_path
       L1lambda L2lambda L1norm L2norm num_iter epoch v).
Proof.
  unfold epoch_body.
  apply raises_only_bind; [apply model_train_never|]. intros _.
  apply raises_only_bind; [apply train_batches_exn|]. intros ir.
  apply raises_only_bind.
  { apply raises_only_lift. intros e He. apply py_div_exn in He. left. exact He. }
  intros lt. apply raises_only_bind; [apply model_eval_never|]. intros _.
  apply raises_only_bind; [apply valid_batches_exn|]. intros rv.
  apply raises_only_bind.
  { apply raises_only_lift. intros e He. apply py_div_exn in He. left. exact He. }
  intros lv. apply raises_only_bind; [apply get_model_never|]. intros model.
  apply raises_only_ret.
Qed.

Lemma epoch_loop_exn (num_iter : Z) (epochs : list Z) :
  forall v,
    raises_only loop_exn
      (epoch_loop dataloaders datasets_len criterion output_path
         L1lambda L2lambda L1norm L2norm num_iter epochs v).
Proof.
  induction epochs as [|epoch rest IH]; intros v.
  - apply raises_only_ret.
  - cbn [epoch_loop]. apply raises_only_bind; [apply epoch_body_exn|].
    intros v'. destruct (early_stop (early_stopping v')); [apply raises_only_ret | apply IH].
Qed.

(** Every exception of [train_val] is the [RuntimeError] of the directory
    check, which leaves the heap as it was, or is raised after the check
    has passed: one of the exceptions of the epoch loop, or the one of
    [torch.save]. *)
Lemma train_val_exn (nepochs : Z) (h h' : heap) (e : exn) :
  train_val dataloaders datasets_len criterion nepochs output_path
    L1lambda L2lambda L1norm L2norm h = (Raise e, h') ->
  (exists p, output_path = Some p /\
             os_path_exists (h_fs h) (os_path_dirname p) = false /\
             e = RuntimeError (os_path_dirname p ++ " does not exist")%string /\
             h' = h) \/
  ((forall p, output_path = Some p ->
              os_path_exists (h_fs h) (os_path_dirname p) = true) /\
   (loop_exn e \/ exists p, output_path = Some p /\ save_exn p e)).
Proof.
  unfold train_val. intros H.
  apply bind_raise_inv in H as [H | (u & h1 & Hcheck & H)].
  - left. destruct output_path as [p|]; [|discriminate].
    exists p. destruct (os_path_exists (h_fs h) (os_path_dirname p)); [discriminate|].
    simpl in H. unfold raise in H. injection H as <- <-. auto.
  - right. split.
    { intros p Hp. rewrite Hp in Hcheck.
      destruct (os_path_exists (h_fs h) (os_path_dirname p)); [reflexivity|].
      discriminate Hcheck. }
    revert H. generalize h1 e h'.
    change (raises_only
      (fun e => loop_exn e \/ exists p, output_path = Some p /\ save_exn p e)
      (bind get_model (fun model =>
         bind (epoch_loop dataloaders datasets_len criterion output_path
                 L1lambda L2lambda L1norm L2norm
                 (Z.of_nat (length (dataloader dataloaders train)))
                 (py_range nepochs)
                 {| train_losses := []; valid_losses := [];
                    best_model_wts := match output_path with
                                      | Some _ => Some (state_dict model)
                                      | None => None
                                      end;
                    best_val_loss := 1.0e6;
                    early_stopping := EarlyStopping 10 true |})
           (fun v =>
              bind (match output_path, best_model_wts v with
                    | Some p, Some w => save w p
                    | _, _ => ret tt
                    end)
                (fun _ => ret (train_losses v, valid_losses v, best_val_loss v)))))).
    apply raises_only_bind; [apply get_model_never|]. intros model.
    apply raises_only_bind.
    { intros h2 e2 h2' H. left. eapply epoch_loop_exn, H. }
    intros v.
    apply raises_only_bind; [|intros; apply raises_only_ret].
    destruct output_path as [p|]; [destruct (best_model_wts v) as [w|]|];
      try apply raises_only_ret.
    intros h2 e2 h2' H. right. exists p. split; [reflexivity|].
    eapply save_raises, H.
Qed.

End Exceptions.

(** ** [train_val]: lengths, the directory check, zero epochs *)

Section TrainValClaims.
Context {TT : TorchTypes} {TO : TorchOps} {ES : EarlyStoppingT}.

Variable dataloaders : dataloaders_t.
Variable datasets_len : datasets_len_t.
Variable criterion : tensor -> tensor -> Q.
Variable nepochs : Z.
Variable output_path : option string.
Variables L1lambda L2lambda : Q.
Variables L1norm L2norm : bool.



(** C9, as amended: with [nepochs = 0], the directory of [output_path] (if
    any) in place and [output_path] a path at which a file can be created,
    [train_val] returns two empty lists and the sentinel [1.0e6], and when
    [output_path] is given it saves the state dict the model had on entry
    to that path; nothing else changes. *)
Theorem train_val_zero_epochs (h : heap) :
  (forall p, output_path = Some p ->
             os_path_exists (h_fs h) (os_path_dirname p) = true /\
             can_write (h_fs h) p = true) ->
  train_val dataloaders datasets_len criterion 0 output_path
    L1lambda L2lambda L1norm L2norm h =
  (Ok ([], [], sentinel),
   match output_path with
   | Some p =>
       {| h_model := h_model h; h_optim := h_optim h; h_sched := h_sched h;
          h_fs := write_file (state_dict (h_model h)) p (h_fs h);
          h_trace := h_trace h ++ [EvSave p] |}
   | None => h
   end).
Proof.
  intros Hdir. unfold train_val, bind. destruct output_path as [p|].
  - destruct (Hdir p eq_refl) as [Hex Hw]. rewrite Hex. cbn.
    unfold save. cbn [h_fs]. rewrite (torch_save_ok _ _ _ Hw). reflexivity.
  - reflexivity.
Qed.

End TrainValClaims.

(** ** The claims on concrete runs *)


(** C1 on a run whose validation losses are [9; 1; 1; 9]. *)
Lemma best_val_loss_is_min_witness :
  fst Examples.improving = Ok ([200100000 # 200000000; 1000500000 # 200000000;
                                3400900000 # 200000000; 7401300000 # 200000000],
                               [9; 1; 1; 9], 1) /\
  py_min (sentinel :: [9; 1; 1; 9]) = Ok 1 /\
  (forall v, In v [9; 1; 1; 9] -> 1 <= v) /\
  ((exists v, In v [9; 1; 1; 9] /\ v < sentinel) -> py_min [9; 1; 1; 9] = Ok 1).
Proof.
  split; [vm_compute; reflexivity|].
  apply (best_val_loss_is_min (TO := Toy.ops) (ES := EarlyStopping_spec)
           (Toy.loaders [(0, 1); (1, 1)] [(0, 5)]) (Toy.sizes 2 1) Toy.mse 4
           (Some "/out/model.pt"%string) 1.0e-3 1.0e-6 true false
           (Toy.heap0 0 (Some [])) (snd Examples.improving)
           [200100000 # 200000000; 1000500000 # 200000000;
            3400900000 # 200000000; 7401300000 # 200000000] [9; 1; 1; 9] 1).
  vm_compute. reflexivity.
Defined.

(** C1 as stated fails: two epochs run, both validation losses are above
    [1.0e6], and [best_val_loss] is the sentinel, not their minimum. *)
Lemma best_val_loss_above_sentinel :
  fst Examples.above_sentinel = Ok ([1; 0], [3996001; 3992004], sentinel) /\
  py_min [3996001; 3992004] = Ok 3992004 /\
  ~ sentinel == 3992004.
Proof.
  split; [vm_compute; reflexivity|]. split; [vm_compute; reflexivity|].
  intros H. vm_compute in H. discriminate H.
Qed.





(** C9 on a model whose only weight is [5]. *)
Lemma train_val_zero_epochs_witness :
  (os_path_exists Toy.fs0 (os_path_dirname "/out/model.pt"%string) = true /\
   can_write Toy.fs0 "/out/model.pt"%string = true) /\
  fst Examples.zero_epochs = Ok ([], [], sentinel) /\
  h_fs (snd Examples.zero_epochs) "/out/model.pt"%string = Some (File [Toy.linear 5]) /\
  h_model (snd Examples.zero_epochs) = Toy.net 5.
Proof.
  split; [split; reflexivity|].
  unfold Examples.zero_epochs, Examples.tv.
  rewrite (train_val_zero_epochs (TO := Toy.ops) (ES := EarlyStopping_spec)
             (Toy.loaders [(0, 1)] [(0, 3)]) (Toy.sizes 1 1) Toy.mse
             (Some "/out/model.pt"%string) 1.0e-3 1.0e-6 false false (Toy.heap0 5 None)).
  - split; [reflexivity|]. split; reflexivity.
  - intros p Hp. injection Hp as <-. split; reflexivity.
Defined.

(** C9 as stated fails: the directory of [output_path = '/out'] is the
    root, which exists, but [/out] is itself a directory; with
    [nepochs = 0] [train_val] then raises the [RuntimeError] of
    [torch.save] instead of returning, and nothing is persisted. *)
Lemma train_val_zero_epochs_onto_directory :
  os_path_exists Toy.fs0 (os_path_dirname "/out"%string) = true /\
  Examples.zero_epochs_onto_directory =
    (Raise (RuntimeError "File /out cannot be opened."), Toy.heap0 5 None).
Proof. split; reflexivity. Qed.

(** ** The scheduler is stepped once per training batch *)

Section SchedulerTrace.
Context {TT : TorchTypes} {TO : TorchOps} {ES : EarlyStoppingT}.

Variable dataloaders : dataloaders_t.
Variable datasets_len : datasets_len_t.
Variable criterion : tensor -> tensor -> Q.
Variable output_path : option string.
Variables L1lambda L2lambda : Q.
Variables L1norm L2norm : bool.

Lemma train_batches_trace (epoch num_iter : Z) (batches : list batch) :
  forall (i0 : nat) (running : Q) (h h' : heap) (r : Z * Q),
    h_sched h <> None ->
    train_batches criterion L1norm L2norm L1lambda L2lambda epoch num_iter
      batches (Z.of_nat i0) running h = (Ok r, h') ->
    h_sched h' <> None /\
    h_trace h' =
      h_trace h ++ flat_map (batch_events epoch num_iter) (seq i0 (length batches)).
Proof.
  induction batches as [|[data target] rest IH]; intros i0 running h h' r Hs H.
  - injection H as _ <-. simpl. rewrite app_nil_r. auto.
  - cbn [train_batches] in H. unfold bind at 1 in H.
    destruct (h_sched h) as [sc|] eqn:Es; [|congruence].
    unfold bind at 1, scheduler_step in H.
    destruct (sched_step _ sc (h_optim h)) as [sc' o'].
    unfold ret at 1 in H.
    unfold bind at 1, optimizer_zero_grad in H.
    unfold bind at 1, model_call in H. cbn [h_model h_optim h_sched h_fs h_trace] in H.
    destruct (forward _ data) as [m2 out].
    unfold bind at 1, get_model in H. cbn [h_model] in H.
    unfold bind at 1 in H.
    destruct (add_regularization m2 (criterion_loss (criterion out target))
                L1norm L2norm L1lambda L2lambda)
      as [loss|e]; [|discriminate].
    cbn [lift] in H. unfold ret at 1 in H.
    unfold bind at 1, loss_backward in H.
    destruct (saved_modified loss); [discriminate|].
    unfold bind at 1, optimizer_step in H. cbn [h_model h_optim h_sched h_fs h_trace] in H.
    destruct (opt_step o' (backward (item loss) m2)) as [o3 m3].
    replace (Z.of_nat i0 + 1)%Z with (Z.of_nat (S i0)) in H by lia.
    apply IH in H; [|discriminate]. cbn [h_sched h_trace] in H.
    destruct H as [Hs' Ht]. split; [exact Hs'|].
    rewrite Ht. cbn [length seq flat_map]. unfold batch_events at 2.
    rewrite <- !app_assoc. reflexivity.
Qed.

Lemma valid_batches_trace (batches : list batch) :
  forall (running : Q) (h h' : heap) (r : result Q),
    valid_batches criterion batches running h = (r, h') ->
    h_sched h' = h_sched h /\ h_trace h' = h_trace h.
Proof.
  induction batches as [|[data target] rest IH]; intros running h h' r H.
  - injection H as _ <-. auto.
  - cbn [valid_batches] in H. unfold bind at 1, model_call in H.
    destruct (forward (h_model h) data) as [m2 out].
    apply IH in H. exact H.
Qed.

Lemma epoch_body_trace (num_iter epoch : Z) (v v' : locals) (h h' : heap) :
  h_sched h <> None ->
  epoch_body dataloaders datasets_len criterion output_path
    L1lambda L2lambda L1norm L2norm num_iter epoch v h = (Ok v', h') ->
  h_sched h' <> None /\
  h_trace h' =
    h_trace h ++ flat_map (batch_events epoch num_iter)
                   (seq 0 (length (dataloader dataloaders train))) /\
  (output_path <> None -> best_model_wts v <> None -> best_model_wts v' <> None).
Proof.
  unfold epoch_body. intros Hs H.
  unfold bind at 1, model_train, set_model in H.
  bind_inv H. apply (train_batches_trace _ _ _ 0%nat) in E as [Hs1 Ht1]; [|exact Hs].
  cbn [h_trace] in Ht1.
  bind_inv H. apply lift_ok_inv in E as [_ ->].
  unfold bind at 1, model_eval, set_model in H.
  bind_inv H. apply valid_batches_trace in E as [Hs2 Ht2].
  cbn [h_sched h_trace] in Hs2, Ht2.
  bind_inv H. apply lift_ok_inv in E as [_ ->].
  unfold bind, get_model, ret in H. injection H as <- <-.
  rewrite Hs2, Ht2. repeat split; auto.
  cbn [best_model_wts]. intros Hp Hw.
  destruct (Qltb _ _); [|exact Hw]. destruct output_path; [discriminate | congruence].
Qed.

Lemma epoch_loop_trace (num_iter : Z) (epochs : list Z) :
  forall (v v' : locals) (h h' : heap),
    h_sched h <> None ->
    epoch_loop dataloaders datasets_len criterion output_path
      L1lambda L2lambda L1norm L2norm num_iter epochs v h = (Ok v', h') ->
    exists k,
      (length (valid_losses v') = length (valid_losses v) + k)%nat /\
      h_sched h' <> None /\
      h_trace h' =
        h_trace h ++
        flat_map (fun epoch =>
                    flat_map (batch_events epoch num_iter)
                      (seq 0 (length (dataloader dataloaders train))))
          (firstn k epochs) /\
      (output_path <> None -> best_model_wts v <> None -> best_model_wts v' <> None).
Proof.
  induction epochs as [|epoch rest IH]; intros v v' h h' Hs H; cbn [epoch_loop] in H.
  - injection H as <- <-. exists 0%nat. simpl. rewrite app_nil_r. auto.
  - bind_inv H.
    pose proof (epoch_body_locals _ _ _ _ _ _ _ _ _ _ _ _ _ _ E) as (lt & lv & _ & Hv & _).
    apply epoch_body_trace in E as (Hs1 & Ht1 & Hw1); [|exact Hs].
    destruct (early_stop (early_stopping a)).
    + injection H as <- <-. exists 1%nat. cbn [firstn flat_map].
      rewrite app_nil_r, Hv, length_app. simpl. auto.
    + apply IH in H as (k & Hk & Hs2 & Ht2 & Hw2); [|exact Hs1].
      exists (S k). cbn [firstn flat_map]. rewrite Ht2, Ht1, <- app_assoc.
      rewrite Hk, Hv, length_app. simpl. repeat split; auto; lia.
Qed.

Lemma firstn_seq_le (k : nat) : forall a n : nat,
  (k <= n)%nat -> firstn k (seq a n) = seq a k.
Proof.
  induction k as [|k IH]; intros a n Hk; [reflexivity|].
  destruct n as [|n]; [lia|]. cbn [seq firstn]. f_equal. apply IH. lia.
Qed.

Lemma scheduler_args_app (t1 t2 : list event) :
  scheduler_args (t1 ++ t2) = scheduler_args t1 ++ scheduler_args t2.
Proof. unfold scheduler_args. apply flat_map_app. Qed.

Lemma scheduler_args_flat_map {A} (g : A -> list event) (l : list A) :
  scheduler_args (flat_map g l) = flat_map (fun x => scheduler_args (g x)) l.
Proof.
  induction l as [|x l IH]; [reflexivity|].
  cbn [flat_map]. rewrite scheduler_args_app, IH. reflexivity.
Qed.

Lemma scheduler_args_save_events (p : option string) :
  scheduler_args (save_events p) = [].
Proof. destruct p; reflexivity. Qed.

Lemma scheduler_args_epoch_events (num_iter epoch : nat) :
  scheduler_args (epoch_events num_iter epoch) =
  map (fun i => inject_Z (Z.of_nat epoch) +
                inject_Z (Z.of_nat i) / inject_Z (Z.of_nat num_iter))
      (seq 0 num_iter).
Proof.
  unfold epoch_events. rewrite scheduler_args_flat_map.
  induction (seq 0 num_iter) as [|i l IH]; [reflexivity|].
  cbn [flat_map map]. rewrite IH. reflexivity.
Qed.

Lemma fraction_lt (epoch n i j : nat) :
  (i < j)%nat -> (j < n)%nat ->
  inject_Z (Z.of_nat epoch) + inject_Z (Z.of_nat i) / inject_Z (Z.of_nat n) <
  inject_Z (Z.of_nat epoch) + inject_Z (Z.of_nat j) / inject_Z (Z.of_nat n).
Proof.
  intros Hij Hjn. apply Qplus_lt_r. unfold Qdiv.
  apply Qmult_lt_compat_r.
  - apply Qinv_lt_0_compat. change 0 with (inject_Z 0). rewrite <- Zlt_Qlt. lia.
  - rewrite <- Zlt_Qlt. lia.
Qed.

Lemma sorted_map_seq (f : nat -> Q) (len : nat) : forall a : nat,
  (forall i j, (a <= i)%nat -> (i < j)%nat -> (j < a + len)%nat -> f i < f j) ->
  StronglySorted Qlt (map f (seq a len)).
Proof.
  induction len as [|len IH]; intros a Hf; cbn [seq map].
  - constructor.
  - constructor.
    + apply IH. intros i j Hi Hij Hj. apply Hf; lia.
    + apply Forall_forall. intros x Hx. apply in_map_iff in Hx as (j & <- & Hj).
      apply in_seq in Hj. apply Hf; lia.
Qed.

Section Observed.
Variable A : Type.
Variable obs : scheduler -> optimizer -> A.
Variable upd : Q -> A -> A.
Hypothesis Hobs : observes obs upd.

Lemma advances_refl (h : heap) : advances obs upd h h.
Proof.
  exists []. split; [symmetry; apply app_nil_r|].
  intros sc Hs. exists sc. split; [exact Hs | reflexivity].
Qed.

Lemma advances_trans (h1 h2 h3 : heap) :
  advances obs upd h1 h2 -> advances obs upd h2 h3 -> advances obs upd h1 h3.
Proof.
  intros (t1 & Ht1 & H1) (t2 & Ht2 & H2). exists (t1 ++ t2). split.
  - rewrite Ht2, Ht1, app_assoc. reflexivity.
  - intros sc Hs. destruct (H1 sc Hs) as (sc1 & Hs1 & Ho1).
    destruct (H2 sc1 Hs1) as (sc2 & Hs2 & Ho2).
    exists sc2. split; [exact Hs2|].
    rewrite Ho2, Ho1, scheduler_args_app, fold_left_app. reflexivity.
Qed.

(** A step that leaves scheduler and optimizer alone and records no
    [scheduler.step]. *)
Lemma advances_quiet (h h' : heap) (t : list event) :
  h_trace h' = h_trace h ++ t -> scheduler_args t = [] ->
  h_sched h' = h_sched h -> h_optim h' = h_optim h ->
  advances obs upd h h'.
Proof.
  intros Ht Ha Hs Ho. exists t. split; [exact Ht|].
  intros sc Hsc. exists sc. rewrite Hs, Ho, Ha. split; [exact Hsc | reflexivity].
Qed.

Lemma epoch_loop_advances (num_iter : Z) (epochs : list Z) (v : locals) :
  preserves (advances obs upd)
    (epoch_loop dataloaders datasets_len criterion output_path
       L1lambda L2lambda L1norm L2norm num_iter epochs v).
Proof.
  apply preserves_epoch_loop.
  - exact advances_refl.
  - exact advances_trans.
  - intros h m. apply (advances_quiet _ _ []); try reflexivity.
    symmetry. apply app_nil_r.
  - intros h. apply (advances_quiet _ _ [EvZeroGrad]); reflexivity.
  - intros loss h. unfold loss_backward. destruct (saved_modified loss).
    + apply (advances_quiet _ _ []); try reflexivity. symmetry. apply app_nil_r.
    + apply (advances_quiet _ _ [EvBackward]); reflexivity.
  - intros h. exists [EvOptimizerStep]. unfold optimizer_step.
    destruct (opt_step (h_optim h) (h_model h)) as [o' m'] eqn:E.
    split; [reflexivity|]. intros sc Hs. exists sc. split; [exact Hs|].
    cbn. change o' with (fst (o', m')). rewrite <- E. apply (obs_opt_step _ _ Hobs).
  - intros h sc x Hs. exists [EvSchedulerStep x]. unfold scheduler_step.
    destruct (sched_step x sc (h_optim h)) as [sc' o'] eqn:E.
    split; [reflexivity|]. intros sc0 Hs0. exists sc'. split; [reflexivity|].
    cbn. assert (sc0 = sc) by congruence. subst sc0.
    change sc' with (fst (sc', o')). change o' with (snd (sc', o')) at 2.
    rewrite <- E. apply (obs_sched_step _ _ Hobs).
Qed.

(** C6: when a scheduler is supplied and [train_val] returns, the calls it
    made are, for each epoch that ran and each training batch in order,
    [scheduler.step(epoch + i/num_iter)] with [i] the zero-based batch index,
    then [optimizer.zero_grad()], [loss.backward()] and [optimizer.step()],
    followed by the final save; so the scheduler is stepped exactly once per
    training batch, before that batch's optimizer step, and within each
    epoch its arguments are strictly increasing.  The steps are taken on
    the scheduler that was passed: whatever one observes of the scheduler
    and of the optimizer it drives that [scheduler.step(x)] changes by
    [upd x] and [optimizer.step()] leaves alone, has on return been changed
    by [upd] once for each of these arguments, in this order. *)
Theorem scheduler_stepped_per_batch (nepochs : Z) (h h' : heap) (sc : scheduler)
    (tl vl : list Q) (b : Q) :
  h_sched h = Some sc ->
  train_val dataloaders datasets_len criterion nepochs output_path
    L1lambda L2lambda L1norm L2norm h = (Ok (tl, vl, b), h') ->
  let num_iter := length (dataloader dataloaders train) in
  let args :=
    flat_map (fun epoch =>
                map (fun i => inject_Z (Z.of_nat epoch) +
                              inject_Z (Z.of_nat i) / inject_Z (Z.of_nat num_iter))
                    (seq 0 num_iter))
             (seq 0 (length vl)) in
  h_trace h' =
    h_trace h ++ flat_map (epoch_events num_iter) (seq 0 (length vl))
              ++ save_events output_path /\
  scheduler_args (h_trace h') = scheduler_args (h_trace h) ++ args /\
  (forall epoch, StronglySorted Qlt (scheduler_args (epoch_events num_iter epoch))) /\
  exists sc',
    h_sched h' = Some sc' /\
    obs sc' (h_optim h') = fold_left (fun a x => upd x a) args (obs sc (h_optim h)).
Proof.
  intros Hsc H num_iter args.
  pose proof H as H0.
  apply train_val_ok_inv in H0 as (v & h1 & Hloop & _ & -> & _ & _ & Hsave).
  assert (Hne : h_sched h <> None) by congruence.
  assert (Hlast : h_sched h' = h_sched h1 /\ h_optim h' = h_optim h1 /\
                  h_trace h' = h_trace h1 ++ save_events output_path).
  { pose proof (epoch_loop_trace _ _ _ _ _ _ Hne Hloop) as (k & _ & _ & _ & Hw).
    cbn [best_model_wts] in Hw.
    destruct output_path as [p|].
    - destruct (best_model_wts v) as [w|].
      + apply save_ok_inv in Hsave as [_ ->]. auto.
      + exfalso. apply Hw; [discriminate | discriminate | reflexivity].
    - injection Hsave as <-. simpl. rewrite app_nil_r. auto. }
  destruct Hlast as (Hs' & Ho' & Hsv).
  assert (Htrace : h_trace h' =
            h_trace h ++ flat_map (epoch_events num_iter) (seq 0 (length (valid_losses v)))
                      ++ save_events output_path).
  { pose proof (epoch_loop_locals _ _ _ _ _ _ _ _ _ _ _ _ _ _ Hloop)
      as (_ & lvs & _ & Hv & _ & Hle & _).
    pose proof (epoch_loop_trace _ _ _ _ _ _ Hne Hloop) as (k & Hk & _ & Ht & _).
    cbn [valid_losses length] in Hk, Hv. simpl in Hv.
    assert (Ek : k = length (valid_losses v)) by lia. subst k.
    assert (Hfirst : firstn (length (valid_losses v)) (py_range nepochs) =
                     map Z.of_nat (seq 0 (length (valid_losses v)))).
    { unfold py_range. rewrite firstn_map, firstn_seq_le; [reflexivity|].
      rewrite Hv. unfold py_range in Hle. rewrite length_map, length_seq in Hle. lia. }
    rewrite Hfirst, flat_map_concat_map, map_map, <- flat_map_concat_map in Ht.
    fold num_iter in Ht.
    rewrite Hsv, Ht, <- app_assoc. reflexivity. }
  assert (Hargs : scheduler_args (h_trace h') = scheduler_args (h_trace h) ++ args).
  { rewrite Htrace, !scheduler_args_app, scheduler_args_save_events, app_nil_r.
    rewrite scheduler_args_flat_map. f_equal.
    apply flat_map_ext. intros epoch. apply scheduler_args_epoch_events. }
  split; [exact Htrace|]. split; [exact Hargs|]. split.
  - intros epoch. rewrite scheduler_args_epoch_events.
    apply sorted_map_seq. intros i j _ Hij Hj. apply fraction_lt; lia.
  - apply epoch_loop_advances in Hloop as (t & Ht & Hadv).
    destruct (Hadv sc Hsc) as (sc1 & Hs1 & Ho1).
    exists sc1. rewrite Hs', Ho'. split; [exact Hs1|]. rewrite Ho1. f_equal.
    rewrite Hsv, Ht, !scheduler_args_app, scheduler_args_save_events, app_nil_r in Hargs.
    apply app_inv_head in Hargs. exact Hargs.
Qed.

End Observed.

End SchedulerTrace.

(** C6 on a run of four epochs over two training batches; what is observed
    is the list of arguments the scheduler has been stepped with. *)
Lemma scheduler_stepped_per_batch_witness :
  let args :=
    flat_map (fun epoch =>
                map (fun i => inject_Z (Z.of_nat epoch) +
                              inject_Z (Z.of_nat i) / inject_Z (Z.of_nat 2))
                    (seq 0 2))
             (seq 0 4) in
  observes (TO := Toy.ops) (fun sc _ => sc) (fun x a => a ++ [x]) /\
  h_sched (Toy.heap0 0 (Some [])) = Some [] /\
  h_trace (snd Examples.improving) =
    flat_map (epoch_events 2) (seq 0 4) ++ [EvSave "/out/model.pt"%string] /\
  scheduler_args (h_trace (snd Examples.improving)) = args /\
  (forall epoch, StronglySorted Qlt (scheduler_args (epoch_events 2 epoch))) /\
  exists sc',
    h_sched (snd Examples.improving) = Some sc' /\
    sc' = fold_left (fun a x => a ++ [x]) args [].
Proof.
  intros args.
  assert (Hobs : observes (TO := Toy.ops) (fun sc _ => sc) (fun x a => a ++ [x])).
  { split; reflexivity. }
  split; [exact Hobs|]. split; [reflexivity|].
  apply (scheduler_stepped_per_batch (TO := Toy.ops) (ES := EarlyStopping_spec)
           (Toy.loaders [(0, 1); (1, 1)] [(0, 5)]) (Toy.sizes 2 1) Toy.mse
           (Some "/out/model.pt"%string) 1.0e-3 1.0e-6 true false
           (list Q) (fun sc _ => sc) (fun x a => a ++ [x]) Hobs 4
           (Toy.heap0 0 (Some [])) (snd Examples.improving) []
           [200100000 # 200000000; 1000500000 # 200000000;
            3400900000 # 200000000; 7401300000 # 200000000] [9; 1; 1; 9] 1).
  - reflexivity.
  - vm_compute. reflexivity.
Defined.

(** ** The tuners *)

Section Tuners.
Context {TT : TorchTypes} {TO : TorchOps} {ES : EarlyStoppingT}.

Variable power10 : Q -> Q.
Variable structure_t : Type.
Variable DNN : structure_t -> module.
Variable dataloaders : dataloaders_t.
Variable datasets_len : datasets_len_t.
Variable criterion : tensor -> tensor -> Q.
Variable adamw_kw : adamw_kw_t.

Lemma without_scheduler_raises {A} (P : exn -> Prop) (c : M A) :
  raises_only P c -> raises_only P (without_scheduler c).
Proof.
  intros Hc h e h'. unfold without_scheduler.
  destruct (c _) as [r h1] eqn:E. intros [= -> _]. eapply Hc, E.
Qed.

Lemma with_locals_raises {A} (P : exn -> Prop) (m : module) (o : optimizer) (c : M A) :
  raises_only P c -> raises_only P (with_locals m o c).
Proof.
  intros Hc h e h'. unfold with_locals.
  destruct (c _) as [r h1] eqn:E. intros [= -> _]. eapply Hc, E.
Qed.

Lemma train_val_not_assertion nepochs output_path L1lambda L2lambda L1norm L2norm :
  raises_only (fun e => forall msg, e <> AssertionError msg)
    (train_val dataloaders datasets_len criterion nepochs output_path
       L1lambda L2lambda L1norm L2norm).
Proof.
  intros h e h' H msg.
  apply train_val_exn in H
    as [(p & _ & _ & -> & _) | [_ [Hl | (p & _ & ->)]]]; try discriminate.
  destruct Hl as [-> | [-> | [-> | [-> | ->]]]]; discriminate.
Qed.

Lemma np_argmin_exn (l : list Q) (e : exn) : np_argmin l = Raise e -> e = ValueError.
Proof. destruct l; intros [= <-]. reflexivity. Qed.

Lemma tune_L1_trials_not_assertion (nepochs : Z) (l1_lambdas : list Q) :
  forall best_val_losses,
    raises_only (fun e => forall msg, e <> AssertionError msg)
      (tune_L1_trials dataloaders datasets_len criterion nepochs l1_lambdas
         best_val_losses).
Proof.
  induction l1_lambdas as [|l rest IH]; intros acc; cbn [tune_L1_trials].
  - apply raises_only_ret.
  - apply raises_only_bind; [apply get_model_never|]. intros model.
    apply raises_only_bind; [apply set_model_never|]. intros _.
    apply raises_only_bind; [|intros r; apply IH].
    apply without_scheduler_raises, train_val_not_assertion.
Qed.

Lemma tune_model_structure_trials_not_assertion (nepochs : Z)
    (structures : list structure_t) :
  forall best_val_losses,
    raises_only (fun e => forall msg, e <> AssertionError msg)
      (tune_model_structure_trials DNN dataloaders datasets_len criterion nepochs
         adamw_kw structures best_val_losses).
Proof.
  induction structures as [|s rest IH]; intros acc; cbn [tune_model_structure_trials].
  - apply raises_only_ret.
  - apply raises_only_bind; [|intros r; apply IH].
    apply with_locals_raises, train_val_not_assertion.
Qed.

Lemma select_not_assertion {A} (candidates : list A) (best_val_losses : list Q) :
  raises_only (fun e => forall msg, e <> AssertionError msg)
    (bind (lift (np_argmin best_val_losses))
       (fun i => match nth_error candidates i with
                 | Some best => ret best
                 | None => raise IndexError
                 end)).
Proof.
  apply raises_only_bind.
  - apply raises_only_lift. intros e He msg. apply np_argmin_exn in He as ->. discriminate.
  - intros i. destruct (nth_error candidates i).
    + apply raises_only_ret.
    + intros h e h' [= <- _] msg. discriminate.
Qed.

Lemma tune_L1_not_assertion (nepochs : Z) :
  (nepochs < 10)%Z ->
  raises_only (fun e => forall msg, e <> AssertionError msg)
    (tune_L1 power10 dataloaders datasets_len criterion nepochs).
Proof.
  intros Hn. unfold tune_L1. apply Z.ltb_lt in Hn. rewrite Hn. cbn [negb].
  apply raises_only_bind; [apply tune_L1_trials_not_assertion|].
  intros losses. apply select_not_assertion.
Qed.

Lemma tune_model_structure_not_assertion (nepochs : Z) (structures : list structure_t) :
  (nepochs < 10)%Z ->
  raises_only (fun e => forall msg, e <> AssertionError msg)
    (tune_model_structure DNN dataloaders datasets_len criterion nepochs
       structures adamw_kw).
Proof.
  intros Hn. unfold tune_model_structure. apply Z.ltb_lt in Hn. rewrite Hn. cbn [negb].
  apply raises_only_bind; [apply tune_model_structure_trials_not_assertion|].
  intros losses. apply select_not_assertion.
Qed.

(** C7: with [nepochs >= 10] both tuners raise the [AssertionError] of
    their guard at once, before any trial: nothing has been reset, trained
    or created.  With [nepochs < 10] neither tuner raises an
    [AssertionError]. *)
Theorem tuners_nepochs_guard (nepochs : Z) (structures : list structure_t) (h : heap) :
  ((10 <= nepochs)%Z ->
   tune_L1 power10 dataloaders datasets_len criterion nepochs h =
     (Raise (AssertionError assert_msg), h) /\
   tune_model_structure DNN dataloaders datasets_len criterion nepochs
     structures adamw_kw h = (Raise (AssertionError assert_msg), h)) /\
  ((nepochs < 10)%Z ->
   forall msg,
     fst (tune_L1 power10 dataloaders datasets_len criterion nepochs h)
       <> Raise (AssertionError msg) /\
     fst (tune_model_structure DNN dataloaders datasets_len criterion nepochs
            structures adamw_kw h) <> Raise (AssertionError msg)).
Proof.
  split.
  - intros Hn. unfold tune_L1, tune_model_structure.
    apply Z.ltb_ge in Hn. rewrite Hn. split; reflexivity.
  - intros Hn msg. split.
    + destruct (tune_L1 _ _ _ _ _ h) as [r h'] eqn:E. cbn [fst]. intros ->.
      exact (tune_L1_not_assertion _ Hn _ _ _ E msg eq_refl).
    + destruct (tune_model_structure _ _ _ _ _ _ _ h) as [r h'] eqn:E.
      cbn [fst]. intros ->.
      exact (tune_model_structure_not_assertion _ _ Hn _ _ _ E msg eq_refl).
Qed.

End Tuners.

(** ** Selection of the minimum *)

Lemma argmin_from_spec (l : list Q) :
  forall (pre : list Q) (best_i : nat) (best : Q),
    first_minimum pre best_i best ->
    exists b, first_minimum (pre ++ l) (argmin_from l (length pre) best_i best) b.
Proof.
  induction l as [|v l IH]; intros pre best_i best Hmin.
  - exists best. rewrite app_nil_r. exact Hmin.
  - destruct Hmin as (Hnth & Hle & Hlt).
    assert (Hi : (best_i < length pre)%nat)
      by (apply nth_error_Some; rewrite Hnth; discriminate).
    cbn [argmin_from].
    replace (pre ++ v :: l) with ((pre ++ [v]) ++ l) by (rewrite <- app_assoc; reflexivity).
    replace (S (length pre)) with (length (pre ++ [v])) by (rewrite length_app; simpl; lia).
    destruct (Qltb v best) eqn:E; apply IH; unfold first_minimum.
    + apply Qltb_lt in E. repeat split.
      * rewrite nth_error_app2, Nat.sub_diag; [reflexivity | lia].
      * intros j c Hj. destruct (Nat.lt_ge_cases j (length pre)) as [Hlt' | Hge].
        -- rewrite nth_error_app1 in Hj by exact Hlt'.
           apply Qlt_le_weak. eapply Qlt_le_trans; [exact E | eapply Hle, Hj].
        -- rewrite nth_error_app2 in Hj by exact Hge.
           destruct (j - length pre)%nat as [|n]; simpl in Hj.
           ++ injection Hj as <-. apply Qle_refl.
           ++ destruct n; discriminate.
      * intros j c Hj Hc. rewrite nth_error_app1 in Hc by exact Hj.
        eapply Qlt_le_trans; [exact E | eapply Hle, Hc].
    + apply Qltb_ge in E. repeat split.
      * rewrite nth_error_app1 by exact Hi. exact Hnth.
      * intros j c Hj. destruct (Nat.lt_ge_cases j (length pre)) as [Hlt' | Hge].
        -- rewrite nth_error_app1 in Hj by exact Hlt'. eapply Hle, Hj.
        -- rewrite nth_error_app2 in Hj by exact Hge.
           destruct (j - length pre)%nat as [|n]; simpl in Hj.
           ++ injection Hj as <-. exact E.
           ++ destruct n; discriminate.
      * intros j c Hj Hc. rewrite nth_error_app1 in Hc by lia.
        eapply Hlt; eassumption.
Qed.

Lemma np_argmin_spec (l : list Q) (i : nat) :
  np_argmin l = Ok i -> exists b, first_minimum l i b.
Proof.
  destruct l as [|x xs]; [discriminate|]. intros [= <-].
  apply (argmin_from_spec xs [x] 0%nat x). unfold first_minimum. repeat split.
  - intros j c Hj. destruct j as [|j]; simpl in Hj.
    + injection Hj as <-. apply Qle_refl.
    + destruct j; discriminate.
  - intros j c Hj. lia.
Qed.



(** ** The trials of the tuners *)

Section TunerTrials.
Context {TT : TorchTypes} {TO : TorchOps} {ES : EarlyStoppingT}.

Variable dataloaders : dataloaders_t.
Variable datasets_len : datasets_len_t.
Variable criterion : tensor -> tensor -> Q.
Variable nepochs : Z.


Lemma tune_L1_trials_spec (ls : list Q) :
  forall (acc : list Q) (h h' : heap) (losses : list Q),
    tune_L1_trials dataloaders datasets_len criterion nepochs ls acc h
      = (Ok losses, h') ->
    exists new,
      losses = acc ++ new /\
      L1_trials dataloaders datasets_len criterion nepochs ls h new h'.
Proof.
  induction ls as [|l rest IH]; intros acc h h' losses H; cbn [tune_L1_trials] in H.
  - injection H as <- <-. exists []. rewrite app_nil_r. split; [reflexivity | constructor].
  - unfold bind at 1, get_model in H. unfold bind at 1, set_model in H.
    cbn [h_model h_optim h_sched h_fs h_trace] in H.
    unfold bind at 1, without_scheduler in H.
    cbn [h_model h_optim h_sched h_fs h_trace] in H.
    fold (L1_trial_start h) in H.
    destruct (train_val _ _ _ _ _ _ _ _ _ (L1_trial_start h)) as [[[[tl vl] b]|e] h1] eqn:E;
      [|discriminate].
    cbn [snd] in H. fold (L1_trial_end h h1) in H.
    apply IH in H as (new & -> & Htr).
    exists (b :: new). rewrite <- app_assoc. split; [reflexivity|].
    econstructor; eassumption.
Qed.

Lemma L1_trials_snoc (ls : list Q) (l1_lambda : Q) :
  forall (h h' : heap) (losses : list Q),
    L1_trials dataloaders datasets_len criterion nepochs (ls ++ [l1_lambda]) h losses h' ->
    exists (before : heap) (earlier : list Q) (h1 : heap) (tl vl : list Q) (b : Q),
      L1_trials dataloaders datasets_len criterion nepochs ls h earlier before /\
      train_val dataloaders datasets_len criterion nepochs None
        l1_lambda 1.0e-6 true false (L1_trial_start before) = (Ok (tl, vl, b), h1) /\
      h' = L1_trial_end before h1 /\
      losses = earlier ++ [b].
Proof.
  induction ls as [|l rest IH]; intros h h' losses H; inversion H; subst.
  - match goal with Hn : L1_trials _ _ _ _ [] _ _ _ |- _ => inversion Hn; subst end.
    exists h, [], h1, tl, vl, b. repeat split; [constructor | assumption].
  - match goal with Hn : L1_trials _ _ _ _ (rest ++ _) _ _ _ |- _ =>
      apply IH in Hn as (before & earlier & h2 & tl2 & vl2 & b2 & Htr & Hrun & -> & ->)
    end.
    exists before, (b :: earlier), h2, tl2, vl2, b2. repeat split; [|assumption].
    econstructor; eassumption.
Qed.

Variable structure_t : Type.
Variable DNN : structure_t -> module.
Variable adamw_kw : adamw_kw_t.



End TunerTrials.

(** ** The tuners run to completion and select the first minimum *)

Section TunerClaims.
Context {TT : TorchTypes} {TO : TorchOps} {ES : EarlyStoppingT}.

Variable power10 : Q -> Q.
Variable dataloaders : dataloaders_t.
Variable datasets_len : datasets_len_t.
Variable criterion : tensor -> tensor -> Q.
Variable nepochs : Z.
Variable structure_t : Type.
Variable DNN : structure_t -> module.
Variable adamw_kw : adamw_kw_t.

Lemma l1_grid : np_logspace power10 (-6) 0 10 = map power10 l1_exponents.
Proof. unfold np_logspace. f_equal. Qed.

Lemma l1_grid_last :
  map power10 l1_exponents = map power10 (removelast l1_exponents) ++ [power10 0].
Proof. reflexivity. Qed.


Section Total.
Hypothesis sizes_ok :
  (0 < nepochs)%Z ->
  dataset_len datasets_len train <> 0%Z /\ dataset_len datasets_len valid <> 0%Z.




End Total.

Lemma select_spec {A} (candidates : list A) (losses : list Q) (h h' : heap) (best : A) :
  bind (lift (np_argmin losses))
    (fun i => match nth_error candidates i with
              | Some best => ret best
              | None => raise IndexError
              end) h = (Ok best, h') ->
  h' = h /\
  exists i b, nth_error candidates i = Some best /\ first_minimum losses i b.
Proof.
  intros H. bind_inv H. apply lift_ok_inv in E as [Harg ->].
  destruct (nth_error candidates a) eqn:En; [|discriminate].
  injection H as <- <-. split; [reflexivity|].
  destruct (np_argmin_spec _ _ Harg) as [b Hb]. exists a, b. auto.
Qed.


(** C10: when [tune_L1] returns, the heap is the one its last trial left:
    the model holds the weights [train_val] ended with in the trial of the
    last strength, [10 ** 0 = 1], whichever trial was selected, and nothing
    reloads the selected trial's best weights; the optimizer is the one that
    went through the nine earlier trials and then through the last one,
    never re-created and untouched by the weight resets. *)
Theorem tune_L1_leaves_last_trial (h h' : heap) (best : Q) :
  power10 0 = 1 ->
  tune_L1 power10 dataloaders datasets_len criterion nepochs h = (Ok best, h') ->
  exists (before : heap) (earlier : list Q) (h1 : heap) (tl vl : list Q) (b : Q),
    L1_trials dataloaders datasets_len criterion nepochs
      (map power10 (removelast l1_exponents)) h earlier before /\
    h_optim (L1_trial_start before) = h_optim before /\
    train_val dataloaders datasets_len criterion nepochs None 1 1.0e-6 true false
      (L1_trial_start before) = (Ok (tl, vl, b), h1) /\
    h_model h' = h_model h1 /\
    h_optim h' = h_optim h1 /\
    h' = L1_trial_end before h1.
Proof.
  intros Hpow H. unfold tune_L1 in H.
  destruct (negb (nepochs <? 10)%Z); [discriminate|].
  bind_inv H. rewrite l1_grid in E, H.
  apply tune_L1_trials_spec in E as (losses & -> & Htr).
  apply select_spec in H as (-> & _).
  rewrite l1_grid_last in Htr.
  apply L1_trials_snoc in Htr
    as (before & earlier & h1 & tl & vl & b & Hearlier & Hrun & -> & _).
  rewrite Hpow in Hrun.
  exists before, earlier, h1, tl, vl, b. repeat split; assumption.
Qed.

End TunerClaims.

(** ** The tuners on concrete runs *)


(** C7 at [nepochs = 10] and [nepochs = 9]. *)
Lemma tuners_nepochs_guard_witness :
  let dl := Toy.loaders [(0, 1)] [(0, 3)] in
  let n := Toy.sizes 1 1 in
  let h := Toy.heap0 0 None in
  ((10 <= 10)%Z /\
   tune_L1 (TO := Toy.ops) (ES := EarlyStopping_spec) Toy.power10 dl n Toy.mse 10 h =
     (Raise (AssertionError assert_msg), h) /\
   tune_model_structure (TO := Toy.ops) (ES := EarlyStopping_spec) Toy.net dl n
     Toy.mse 10 [0; 5; 1] tt h = (Raise (AssertionError assert_msg), h)) /\
  ((9 < 10)%Z /\
   forall msg,
     fst (tune_L1 (TO := Toy.ops) (ES := EarlyStopping_spec) Toy.power10 dl n Toy.mse 9 h)
       <> Raise (AssertionError msg) /\
     fst (tune_model_structure (TO := Toy.ops) (ES := EarlyStopping_spec) Toy.net dl n
            Toy.mse 9 [0; 5; 1] tt h) <> Raise (AssertionError msg)).
Proof.
  intros dl n h. split.
  - split; [lia|].
    apply (tuners_nepochs_guard (TO := Toy.ops) (ES := EarlyStopping_spec)
             Toy.power10 Q Toy.net dl n Toy.mse tt 10 [0; 5; 1] h). lia.
  - split; [lia|].
    apply (tuners_nepochs_guard (TO := Toy.ops) (ES := EarlyStopping_spec)
             Toy.power10 Q Toy.net dl n Toy.mse tt 9 [0; 5; 1] h). lia.
Defined.


(** C10 on a sweep whose trials reach their best validation loss, [0], with
    weight [1], after the first of two epochs: on return the model holds
    weight [2], and the optimizer has made the [20] steps of all ten trials. *)
Lemma tune_L1_leaves_last_trial_witness :
  let dl := Toy.loaders [(0, 1)] [(0, 1)] in
  let n := Toy.sizes 1 1 in
  let h := Toy.heap0 0 None in
  let l1 := tune_L1 (TO := Toy.ops) (ES := EarlyStopping_spec) Toy.power10 dl n Toy.mse 2 h in
  Toy.power10 0 = 1 /\
  fst l1 = Ok (1 # 1000000) /\
  fc (h_model (snd l1)) = [Toy.linear 2] /\
  h_optim (snd l1) = 20%nat /\
  exists (before : heap) (earlier : list Q) (h1 : heap) (tl vl : list Q) (b : Q),
    L1_trials (TO := Toy.ops) (ES := EarlyStopping_spec) dl n Toy.mse 2
      (map Toy.power10 (removelast l1_exponents)) h earlier before /\
    h_optim (L1_trial_start (TO := Toy.ops) before) = h_optim before /\
    train_val (TO := Toy.ops) (ES := EarlyStopping_spec) dl n Toy.mse 2 None 1 1.0e-6
      true false (L1_trial_start (TO := Toy.ops) before) = (Ok (tl, vl, b), h1) /\
    h_model (snd l1) = h_model h1 /\
    h_optim (snd l1) = h_optim h1 /\
    snd l1 = L1_trial_end before h1.
Proof.
  intros dl n h l1.
  split; [reflexivity|]. split; [vm_compute; reflexivity|].
  split; [vm_compute; reflexivity|]. split; [vm_compute; reflexivity|].
  apply (tune_L1_leaves_last_trial (TO := Toy.ops) (ES := EarlyStopping_spec)
           Toy.power10 dl n Toy.mse 2 h (snd l1) (1 # 1000000)).
  - reflexivity.
  - vm_compute. reflexivity.
Defined.

(** ** The checkpoint reproduces the best validation loss *)

Tactic Notation "bind_inv_as" hyp(H) ident(a) ident(h) ident(E) :=
  apply bind_ok_inv in H; destruct H as (a & h & E & H).

Section Checkpoint.
Context {TT : TorchTypes} {TO : TorchOps} {ES : EarlyStoppingT}.

Variable dataloaders : dataloaders_t.
Variable datasets_len : datasets_len_t.
Variable criterion : tensor -> tensor -> Q.
Variables L1lambda L2lambda : Q.
Variables L1norm L2norm : bool.

Hypothesis efp : eval_forward_pure.

Lemma eval_sum_ext (m m' : module) (batches : list batch) :
  training m = false -> training m' = false -> fc m = fc m' ->
  forall running, eval_sum criterion m batches running
                  = eval_sum criterion m' batches running.
Proof.
  intros Hm Hm' Hfc. induction batches as [|[data target] rest IH]; intros running.
  - reflexivity.
  - cbn [eval_sum]. rewrite (efp_output efp m m' data Hm Hm' Hfc). apply IH.
Qed.

Lemma valid_batches_pure (batches : list batch) :
  forall (running : Q) (h : heap),
    training (h_model h) = false ->
    valid_batches criterion batches running h
    = (Ok (eval_sum criterion (h_model h) batches running), h).
Proof.
  induction batches as [|[data target] rest IH]; intros running h Hev.
  - reflexivity.
  - cbn [valid_batches eval_sum]. unfold bind at 1, model_call.
    pose proof (efp_module efp (h_model h) data Hev) as Hm.
    destruct (forward (h_model h) data) as [m2 out] eqn:Ef. cbn [fst snd] in *. subst m2.
    assert (Hh : {| h_model := h_model h; h_optim := h_optim h; h_sched := h_sched h;
                    h_fs := h_fs h; h_trace := h_trace h |} = h) by (destruct h; reflexivity).
    rewrite Hh. apply IH, Hev.
Qed.

Lemma evaluate_batches_pure (batches : list batch) :
  (forall a b, criterion a b = criterion b a) ->
  forall (loss : option pyfloat) (h : heap),
    training (h_model h) = false ->
    evaluate_batches criterion batches loss h
    = (Ok (eval_sum32 criterion (h_model h) batches loss), h).
Proof.
  intros Hsym. induction batches as [|[data target] rest IH]; intros loss h Hev.
  - reflexivity.
  - cbn [evaluate_batches eval_sum32]. unfold bind at 1, model_call.
    pose proof (efp_module efp (h_model h) data Hev) as Hm.
    destruct (forward (h_model h) data) as [m2 out] eqn:Ef. cbn [fst snd] in *. subst m2.
    assert (Hh : {| h_model := h_model h; h_optim := h_optim h; h_sched := h_sched h;
                    h_fs := h_fs h; h_trace := h_trace h |} = h) by (destruct h; reflexivity).
    rewrite Hh, (IH _ _ Hev), (Hsym target out). reflexivity.
Qed.

Lemma eval_sum32_some (m : module) (batches : list batch) :
  forall loss, loss <> None \/ batches <> [] ->
               exists l, eval_sum32 criterion m batches loss = Some l.
Proof.
  induction batches as [|[data target] rest IH]; intros loss H.
  - destruct H as [H | H]; [|congruence].
    destruct loss as [l|]; [exists l; reflexivity | congruence].
  - cbn [eval_sum32]. apply IH. left. discriminate.
Qed.

Lemma epoch_body_checkpoint (p : string) (num_iter epoch : Z) (v v' : locals)
    (h h' : heap) :
  epoch_body dataloaders datasets_len criterion (Some p)
    L1lambda L2lambda L1norm L2norm num_iter epoch v h = (Ok v', h') ->
  checkpoint_inv dataloaders datasets_len criterion v ->
  checkpoint_inv dataloaders datasets_len criterion v'.
Proof.
  unfold epoch_body. intros H Hinv.
  bind_inv_as H u1 h1 E1. bind_inv_as H ir h2 E2. bind_inv_as H lt h3 E3.
  bind_inv_as H u2 h4 E4.
  unfold model_eval, set_model in E4. injection E4 as _ <-.
  bind_inv_as H rv h5 E5.
  rewrite valid_batches_pure in E5 by reflexivity. injection E5 as <- <-.
  bind_inv_as H lv h6 E6. apply lift_ok_inv in E6 as [Hdiv ->].
  unfold bind, get_model, ret in H. injection H as <- _.
  unfold checkpoint_inv in *. cbn [best_val_loss best_model_wts h_model].
  destruct (Qltb lv (best_val_loss v)) eqn:Eimp.
  - intros _. eexists. split; [reflexivity|].
    intros m Hfc Hev. rewrite <- Hdiv. f_equal.
    apply eval_sum_ext; [exact Hev | reflexivity | exact Hfc].
  - exact Hinv.
Qed.

Lemma epoch_loop_checkpoint (p : string) (num_iter : Z) (epochs : list Z) :
  forall (v v' : locals) (h h' : heap),
    epoch_loop dataloaders datasets_len criterion (Some p)
      L1lambda L2lambda L1norm L2norm num_iter epochs v h = (Ok v', h') ->
    checkpoint_inv dataloaders datasets_len criterion v ->
  checkpoint_inv dataloaders datasets_len criterion v'.
Proof.
  induction epochs as [|epoch rest IH]; intros v v' h h' H Hinv; cbn [epoch_loop] in H.
  - injection H as <- _. exact Hinv.
  - bind_inv H. apply epoch_body_checkpoint in E; [|exact Hinv].
    destruct (early_stop (early_stopping a)).
    + injection H as <- _. exact E.
    + eapply IH; eassumption.
Qed.

(** C2, as amended: let [train_val], called with an [output_path], return a
    [best_val_loss] below [1.0e6], and let the forward pass in evaluation
    mode leave the module alone and depend on the state dict only.  Then
    the file at [output_path] holds the weights with which [train_val]
    measured [best_val_loss]: on any model into which they have been
    loaded, put in evaluation mode, the validation pass of [train_val]
    gives a sum that, divided by the validation size, is [best_val_loss].
    [evaluate] on such a model, for a criterion symmetric in its arguments
    and a non-empty validation loader, goes through the same batch losses
    but accumulates and divides them as float32 tensors: what it returns is
    their float32 weighted mean, which is not claimed to be
    [best_val_loss]. *)
Theorem checkpoint_reproduces_best_val_loss (nepochs : Z) (p : string)
    (h h' : heap) (tl vl : list Q) (b : Q) :
  train_val dataloaders datasets_len criterion nepochs (Some p)
    L1lambda L2lambda L1norm L2norm h = (Ok (tl, vl, b), h') ->
  b < sentinel ->
  exists w,
    torch_load p (h_fs h') = Ok w /\
    forall (m0 : module) (hx : heap),
      h_model hx = load_state_dict w m0 ->
      let he := snd (model_eval hx) in
      (exists s,
          valid_batches criterion (dataloader dataloaders valid) 0 he = (Ok s, he) /\
          py_div s (dataset_len datasets_len valid) = Ok b) /\
      ((forall x y, criterion x y = criterion y x) ->
       dataloader dataloaders valid <> [] ->
       exists l,
         eval_sum32 criterion (h_model he) (dataloader dataloaders valid) None
           = Some l /\
         fst (evaluate dataloaders datasets_len criterion valid hx)
           = Ok (f32_div l (dataset_len datasets_len valid))).
Proof.
  intros H Hlt.
  apply train_val_ok_inv in H as (v & h1 & Hloop & _ & _ & -> & _ & Hsave).
  apply epoch_loop_checkpoint in Hloop.
  2:{ unfold checkpoint_inv. cbn [best_val_loss]. intros Habs.
      exfalso. exact (Qlt_irrefl _ Habs). }
  destruct (Hloop Hlt) as (w & Hw & Hval). rewrite Hw in Hsave.
  apply save_ok_inv in Hsave as [_ ->]. cbn [h_fs].
  exists w. split.
  - unfold torch_load. rewrite write_file_same. reflexivity.
  - intros m0 hx Hm. set (he := snd (model_eval hx)).
    assert (Hev : training (h_model he) = false) by reflexivity.
    assert (Hfc : fc (h_model he) = w).
    { subst he. unfold model_eval, set_model. cbn. rewrite Hm. reflexivity. }
    split.
    + eexists. split; [apply valid_batches_pure, Hev|].
      apply Hval; assumption.
    + intros Hsym Hne.
      destruct (eval_sum32_some (h_model he) (dataloader dataloaders valid) None)
        as [l Hl]; [right; exact Hne|].
      exists l. split; [exact Hl|].
      unfold evaluate. unfold bind at 1.
      assert (Eme : model_eval hx = (Ok tt, he)) by reflexivity.
      rewrite Eme. unfold bind at 1.
      rewrite (evaluate_batches_pure _ Hsym) by exact Hev.
      rewrite Hl. reflexivity.
Qed.

End Checkpoint.

(** ** The checkpoint on concrete runs *)

Lemma toy_eval_forward_pure : eval_forward_pure (TO := Toy.ops).
Proof.
  split.
  - intros m x _. reflexivity.
  - intros m m' x _ _ Hfc. simpl. rewrite Hfc. reflexivity.
Qed.

Lemma toy_mse_symmetric (x y : Q) : Toy.mse x y = Toy.mse y x.
Proof. unfold Toy.mse. apply Qred_complete. ring. Qed.

(** C2 on the run whose validation losses are [9; 1; 1; 9]: the checkpoint
    holds the weight of the second epoch, [4], with which the validation
    loss is [1]; float32 arithmetic being exact on the scalar PyTorch,
    [evaluate] gives [1] as well. *)
Lemma checkpoint_reproduces_best_val_loss_witness :
  let dl := Toy.loaders [(0, 1); (1, 1)] [(0, 5)] in
  let n := Toy.sizes 2 1 in
  1 < sentinel /\
  torch_load "/out/model.pt"%string (h_fs (snd Examples.improving))
    = Ok [Toy.linear 4] /\
  forall (m0 : module) (hx : heap),
    h_model hx = load_state_dict [Toy.linear 4] m0 ->
    let he := snd (model_eval hx) in
    (exists s,
        valid_batches (TO := Toy.ops) Toy.mse (dataloader dl valid) 0 he = (Ok s, he) /\
        py_div s (dataset_len n valid) = Ok 1) /\
    fst (evaluate (TO := Toy.ops) dl n Toy.mse valid hx) = Ok (Finite 1).
Proof.
  intros dl n. split; [reflexivity|].
  destruct (checkpoint_reproduces_best_val_loss
              (TO := Toy.ops) (ES := EarlyStopping_spec)
              dl n Toy.mse 1.0e-3 1.0e-6 true false toy_eval_forward_pure 4
              "/out/model.pt"%string (Toy.heap0 0 (Some [])) (snd Examples.improving)
              [200100000 # 200000000; 1000500000 # 200000000;
               3400900000 # 200000000; 7401300000 # 200000000] [9; 1; 1; 9] 1)
    as (w & Hload & Hw).
  - vm_compute. reflexivity.
  - reflexivity.
  - assert (Ew : w = [Toy.linear 4]).
    { vm_compute in Hload. injection Hload as <-. reflexivity. }
    subst w. split; [vm_compute; reflexivity|].
    intros m0 hx Hm he. destruct (Hw m0 hx Hm) as [Hvalid Heval].
    split; [exact Hvalid|].
    destruct (Heval toy_mse_symmetric) as (l & Hl & He); [discriminate|].
    rewrite He. f_equal.
    unfold model_eval, set_model in Hl. cbn in Hl. rewrite Hm in Hl. cbn in Hl.
    injection Hl as <-. reflexivity.
Defined.

(** C2 as stated fails: in the run whose validation losses stay above
    [1.0e6], [best_val_loss] is the sentinel and the checkpoint holds the
    weights the model had on entry; evaluating them on the validation split
    gives [4000000], although the criterion is symmetric, the forward pass
    pure and the float32 arithmetic exact. *)
Lemma checkpoint_of_sentinel_run :
  let dl := Toy.loaders [(0, 1)] [(0, 2000)] in
  let n := Toy.sizes 1 1 in
  Examples.above_sentinel =
    (Examples.tv [(0, 1)] [(0, 2000)] 1 1 2 (Some "/out/model.pt"%string) 1.0e-3 false
       (Toy.heap0 0 None)) /\
  fst Examples.above_sentinel = Ok ([1; 0], [3996001; 3992004], sentinel) /\
  torch_load "/out/model.pt"%string (h_fs (snd Examples.above_sentinel))
    = Ok [Toy.linear 0] /\
  (forall m0 hx,
      h_model hx = load_state_dict [Toy.linear 0] m0 ->
      fst (evaluate (TO := Toy.ops) dl n Toy.mse valid hx) = Ok (Finite 4000000)) /\
  ~ 4000000 == sentinel.
Proof.
  intros dl n. split; [reflexivity|]. split; [vm_compute; reflexivity|].
  split; [vm_compute; reflexivity|]. split.
  - intros m0 hx Hm. unfold evaluate, bind, model_eval, set_model; simpl.
    rewrite Hm. reflexivity.
  - intros H. vm_compute in H. discriminate H.
Qed.

(** [evaluate] calls [criterion(target, output)] where [train_val] calls
    [criterion(output, target)]: with a criterion that is not symmetric,
    here the one returning its first argument, the checkpoint of a run with
    best validation loss [1] evaluates to [5]. *)
Lemma evaluate_swaps_criterion :
  let dl := Toy.loaders [(0, 1)] [(0, 5)] in
  let n := Toy.sizes 1 1 in
  let first_arg := fun x _ : Q => x in
  let run := train_val (TO := Toy.ops) (ES := EarlyStopping_spec) dl n first_arg 1
               (Some "/out/model.pt"%string) 1.0e-3 1.0e-6 false false
               (Toy.heap0 0 None) in
  fst run = Ok ([0], [1], 1) /\
  torch_load "/out/model.pt"%string (h_fs (snd run)) = Ok [Toy.linear 1] /\
  fst (evaluate (TO := Toy.ops) dl n first_arg valid
         {| h_model := load_state_dict [Toy.linear 1] (Toy.net 0); h_optim := 0%nat;
            h_sched := None; h_fs := h_fs (snd run); h_trace := [] |})
    = Ok (Finite 5).
Proof.
  intros dl n first_arg run. split; [vm_compute; reflexivity|].
  split; vm_compute; reflexivity.
Qed.

(** * Further properties of the training module *)

(** ** [evaluate] *)

Section Evaluate.
Context {TT : TorchTypes} {TO : TorchOps}.

Variable dataloaders : dataloaders_t.
Variable datasets_len : datasets_len_t.
Variable criterion : tensor -> tensor -> Q.



(** X2: whatever its outcome, [evaluate] touches nothing but the model: the
    optimizer, the scheduler, the file system and the trace of calls are as
    they were, so it neither trains nor saves. *)
Theorem evaluate_only_touches_model (phase : phase_t) (h : heap) :
  only_model_changed h (snd (evaluate dataloaders datasets_len criterion phase h)).
Proof.
  destruct (evaluate dataloaders datasets_len criterion phase h) as [r h'] eqn:E.
  cbn [snd]. revert E. apply preserves_evaluate.
  - apply only_model_changed_refl.
  - apply only_model_changed_trans.
  - intros h0 m. unfold only_model_changed. cbn. auto.
Qed.

End Evaluate.

(** ** [train_val]: file system and scheduler frames *)

Section TrainValFrames.
Context {TT : TorchTypes} {TO : TorchOps} {ES : EarlyStoppingT}.

Variable dataloaders : dataloaders_t.
Variable datasets_len : datasets_len_t.
Variable criterion : tensor -> tensor -> Q.
Variable output_path : option string.
Variables L1lambda L2lambda : Q.
Variables L1norm L2norm : bool.

(** The outcome of [train_val] in terms of the epoch loop. *)
Lemma train_val_cases (nepochs : Z) (h : heap) :
  (exists p, output_path = Some p /\
             os_path_exists (h_fs h) (os_path_dirname p) = false /\
             train_val dataloaders datasets_len criterion nepochs output_path
               L1lambda L2lambda L1norm L2norm h
             = (Raise (RuntimeError (os_path_dirname p ++ " does not exist")%string), h)) \/
  exists rl h1,
    epoch_loop dataloaders datasets_len criterion output_path
      L1lambda L2lambda L1norm L2norm
      (Z.of_nat (length (dataloader dataloaders train))) (py_range nepochs)
      {| train_losses := []; valid_losses := [];
         best_model_wts := match output_path with
                           | Some _ => Some (state_dict (h_model h))
                           | None => None
                           end;
         best_val_loss := 1.0e6;
         early_stopping := EarlyStopping 10 true |} h = (rl, h1) /\
    match rl with
    | Raise e =>
        train_val dataloaders datasets_len criterion nepochs output_path
          L1lambda L2lambda L1norm L2norm h = (Raise e, h1)
    | Ok v =>
        train_val dataloaders datasets_len criterion nepochs output_path
          L1lambda L2lambda L1norm L2norm h =
        match output_path, best_model_wts v with
        | Some p, Some w =>
            match torch_save w p (h_fs h1) with
            | Ok fs' =>
                (Ok (train_losses v, valid_losses v, best_val_loss v),
                 {| h_model := h_model h1; h_optim := h_optim h1;
                    h_sched := h_sched h1;
                    h_fs := fs'; h_trace := h_trace h1 ++ [EvSave p] |})
            | Raise e => (Raise e, h1)
            end
        | _, _ => (Ok (train_losses v, valid_losses v, best_val_loss v), h1)
        end
    end.
Proof.
  remember (train_val dataloaders datasets_len criterion nepochs output_path
              L1lambda L2lambda L1norm L2norm h) as tv eqn:Etv.
  unfold train_val in Etv. unfold bind at 1 in Etv.
  destruct output_path as [p|] eqn:Ep; cbv beta zeta in Etv.
  - destruct (os_path_exists (h_fs h) (os_path_dirname p)) eqn:Ex.
    + right. cbn [negb] in Etv.
      unfold ret at 1 in Etv. cbv beta iota in Etv.
      unfold bind at 1, get_model in Etv.
      unfold bind at 1 in Etv.
      match type of Etv with context [epoch_loop ?a ?b ?c ?d ?e ?f ?g ?i ?n ?es ?v0 h] =>
        destruct (epoch_loop a b c d e f g i n es v0 h) as [rl h1] eqn:E end.
      exists rl, h1. split; [reflexivity|].
      destruct rl as [v|e]; [|exact Etv].
      rewrite Etv. destruct (best_model_wts v) as [w|]; [|reflexivity].
      unfold bind, save. destruct (torch_save w p (h_fs h1)); reflexivity.
    + left. exists p. split; [reflexivity|]. split; [exact Ex | exact Etv].
  - right. unfold ret at 1 in Etv. cbv beta iota in Etv.
    unfold bind at 1, get_model in Etv.
    unfold bind at 1 in Etv.
    match type of Etv with context [epoch_loop ?a ?b ?c ?d ?e ?f ?g ?i ?n ?es ?v0 h] =>
      destruct (epoch_loop a b c d e f g i n es v0 h) as [rl h1] eqn:E end.
    exists rl, h1. split; [reflexivity|].
    destruct rl as [v|e]; exact Etv.
Qed.

Lemma epoch_body_keeps_wts (num_iter epoch : Z) (v v' : locals) (h h' : heap) :
  epoch_body dataloaders datasets_len criterion output_path
    L1lambda L2lambda L1norm L2norm num_iter epoch v h = (Ok v', h') ->
  best_model_wts v <> None -> best_model_wts v' <> None.
Proof.
  unfold epoch_body. intros H Hw.
  bind_inv_as H u1 h1 E1. bind_inv_as H ir h2 E2. bind_inv_as H lt h3 E3.
  bind_inv_as H u2 h4 E4. bind_inv_as H rv h5 E5. bind_inv_as H lv h6 E6.
  unfold bind, get_model, ret in H. injection H as <- _.
  cbn [best_model_wts]. destruct (Qltb lv (best_val_loss v)); [|exact Hw].
  destruct output_path; [discriminate | exact Hw].
Qed.

Lemma epoch_loop_keeps_wts (num_iter : Z) (epochs : list Z) :
  forall (v v' : locals) (h h' : heap),
    epoch_loop dataloaders datasets_len criterion output_path
      L1lambda L2lambda L1norm L2norm num_iter epochs v h = (Ok v', h') ->
    best_model_wts v <> None -> best_model_wts v' <> None.
Proof.
  induction epochs as [|epoch rest IH]; intros v v' h h' H Hw; cbn [epoch_loop] in H.
  - injection H as <- _. exact Hw.
  - bind_inv_as H v1 h1 E1. apply epoch_body_keeps_wts in E1; [|exact Hw].
    destruct (early_stop (early_stopping v1)).
    + injection H as <- _. exact E1.
    + eapply IH; eassumption.
Qed.

(** X3: [train_val] writes at most one file.  Whatever its outcome, every
    path other than [output_path] keeps its content; without an
    [output_path], and whenever an exception is raised, the file system is
    exactly as it was; when it returns with an [output_path], that path holds
    a state dict. *)
Theorem train_val_file_system (nepochs : Z) (h : heap) :
  let out := train_val dataloaders datasets_len criterion nepochs output_path
               L1lambda L2lambda L1norm L2norm h in
  (forall e, fst out = Raise e -> h_fs (snd out) = h_fs h) /\
  (output_path = None -> h_fs (snd out) = h_fs h) /\
  (forall p, output_path = Some p ->
     (forall q, q <> p -> h_fs (snd out) q = h_fs h q) /\
     (forall r, fst out = Ok r -> exists w, h_fs (snd out) p = Some (File w))).
Proof.
  cbv zeta.
  destruct (train_val_cases nepochs h) as [(p & Hp & _ & E) | (rl & h1 & Hloop & E)].
  - rewrite E. cbn [fst snd]. split; [reflexivity|]. split; [reflexivity|].
    intros p0 _. split; [reflexivity|]. intros r Hr. discriminate Hr.
  - pose proof (epoch_loop_same_fs _ _ _ _ _ _ _ _ _ _ _ _ _ _ Hloop) as Hfs.
    unfold same_fs in Hfs.
    destruct rl as [v|e]; rewrite E; cbn [fst snd].
    + assert (Hk : output_path <> None -> best_model_wts v <> None).
      { intros Hne. eapply epoch_loop_keeps_wts; [exact Hloop|].
        cbn [best_model_wts]. destruct output_path; [discriminate | congruence]. }
      destruct output_path as [p|] eqn:Ep.
      * specialize (Hk ltac:(discriminate)).
        destruct (best_model_wts v) as [w|]; [|congruence].
        destruct (torch_save w p (h_fs h1)) as [fs'|e] eqn:Es; cbn [fst snd h_fs].
        -- apply torch_save_ok_inv in Es as [_ ->].
           split; [intros e He; discriminate He|]. split; [discriminate|].
           intros p0 [= <-]. split.
           ++ intros q Hq. rewrite write_file_other, Hfs by exact Hq. reflexivity.
           ++ intros _ _. exists w. apply write_file_same.
        -- split; [intros _ _; exact Hfs|]. split; [discriminate|].
           intros p0 _. split; [intros q _; rewrite Hfs; reflexivity|].
           intros r Hr. discriminate Hr.
      * cbn [fst snd]. split; [intros e He; discriminate He|].
        split; [intros _; exact Hfs|]. intros p Hp. discriminate Hp.
    + split; [intros _ _; exact Hfs|]. split; [intros _; exact Hfs|].
      intros p _. split; [intros q _; rewrite Hfs; reflexivity|].
      intros r Hr. discriminate Hr.
Qed.

Lemma no_scheduler_kept_trans (h1 h2 h3 : heap) :
  no_scheduler_kept h1 h2 -> no_scheduler_kept h2 h3 -> no_scheduler_kept h1 h3.
Proof.
  unfold no_scheduler_kept. intros H12 H23 Hn.
  destruct (H12 Hn) as [Hn2 Ht2]. destruct (H23 Hn2) as [Hn3 Ht3].
  split; congruence.
Qed.

(** X4: called without a scheduler, [train_val] never steps one, whatever
    its outcome: the scheduler binding is still [None] and the sequence of
    [scheduler.step] arguments in the trace is what it was. *)
Theorem train_val_without_scheduler (nepochs : Z) (h : heap) :
  h_sched h = None ->
  let out := train_val dataloaders datasets_len criterion nepochs output_path
               L1lambda L2lambda L1norm L2norm h in
  h_sched (snd out) = None /\
  scheduler_args (h_trace (snd out)) = scheduler_args (h_trace h).
Proof.
  intros Hn. cbv zeta.
  assert (Hloop : forall num_iter epochs v,
             preserves no_scheduler_kept
               (epoch_loop dataloaders datasets_len criterion output_path
                  L1lambda L2lambda L1norm L2norm num_iter epochs v)).
  { intros. apply preserves_epoch_loop; unfold no_scheduler_kept.
    - intros h0 Hn0. auto.
    - exact no_scheduler_kept_trans.
    - intros h0 m Hn0. cbn. auto.
    - intros h0 Hn0. cbn [optimizer_zero_grad snd h_sched h_trace].
      split; [exact Hn0|]. rewrite scheduler_args_app. apply app_nil_r.
    - intros loss h0 Hn0. unfold loss_backward.
      destruct (saved_modified loss); cbn [snd h_sched h_trace];
        (split; [exact Hn0|]); [reflexivity|].
      rewrite scheduler_args_app. apply app_nil_r.
    - intros h0 Hn0. unfold optimizer_step.
      destruct (opt_step (h_optim h0) (h_model h0)) as [o' m'].
      cbn [snd h_sched h_trace]. split; [exact Hn0|].
      rewrite scheduler_args_app. apply app_nil_r.
    - intros h0 sc x Hs Hn0. congruence. }
  destruct (train_val_cases nepochs h) as [(p & Hp & _ & E) | (rl & h1 & Hl & E)].
  - rewrite E. cbn [snd]. auto.
  - apply Hloop in Hl. destruct (Hl Hn) as [Hn1 Ht1].
    destruct rl as [v|e]; rewrite E; cbn [snd]; [|auto].
    destruct output_path as [p|]; [|auto].
    destruct (best_model_wts v) as [w|]; [|auto].
    destruct (torch_save w p (h_fs h1)); cbn [snd h_sched h_trace]; [|auto].
    split; [exact Hn1|]. rewrite scheduler_args_app, Ht1. simpl. apply app_nil_r.
Qed.

Lemma optimizer_steps_app (t1 t2 : list event) :
  optimizer_steps (t1 ++ t2) = (optimizer_steps t1 + optimizer_steps t2)%nat.
Proof. unfold optimizer_steps. rewrite filter_app, length_app. reflexivity. Qed.

Lemma train_batches_steps (epoch num_iter : Z) (batches : list batch) :
  forall (i : Z) (running : Q) (h h' : heap) (r : Z * Q),
    train_batches criterion L1norm L2norm L1lambda L2lambda epoch num_iter
      batches i running h = (Ok r, h') ->
    optimizer_steps (h_trace h') = (optimizer_steps (h_trace h) + length batches)%nat.
Proof.
  induction batches as [|[data target] rest IH]; intros i running h h' r H.
  - injection H as _ <-. simpl. lia.
  - cbn [train_batches] in H. bind_inv_as H i1 h1 E1.
    assert (Ht1 : optimizer_steps (h_trace h1) = optimizer_steps (h_trace h)).
    { destruct (h_sched h) as [sc|].
      - unfold bind, scheduler_step in E1. destruct (sched_step _ _ _).
        injection E1 as _ <-. cbn [h_trace]. rewrite optimizer_steps_app. cbn. lia.
      - injection E1 as _ <-. reflexivity. }
    bind_inv_as H u2 h2 E2. injection E2 as _ <-.
    bind_inv_as H out h3 E3. unfold model_call in E3.
    destruct (forward _ data) as [m3 o3]. injection E3 as _ <-.
    bind_inv_as H model h4 E4. injection E4 as _ <-.
    bind_inv_as H loss h5 E5. apply lift_ok_inv in E5 as [_ ->].
    bind_inv_as H u6 h6 E6. unfold loss_backward in E6.
    destruct (saved_modified loss); [discriminate|]. injection E6 as _ <-.
    bind_inv_as H u7 h7 E7. unfold optimizer_step in E7.
    destruct (opt_step _ _) as [o7 m7]. injection E7 as _ <-.
    apply IH in H. rewrite H. cbn [h_trace length].
    rewrite !optimizer_steps_app, Ht1. cbn. lia.
Qed.

Lemma epoch_body_steps (num_iter epoch : Z) (v v' : locals) (h h' : heap) :
  epoch_body dataloaders datasets_len criterion output_path
    L1lambda L2lambda L1norm L2norm num_iter epoch v h = (Ok v', h') ->
  optimizer_steps (h_trace h') =
    (optimizer_steps (h_trace h) + length (dataloader dataloaders train))%nat.
Proof.
  unfold epoch_body. intros H.
  bind_inv_as H u1 h1 E1. injection E1 as _ <-.
  bind_inv_as H ir h2 E2. apply train_batches_steps in E2. cbn [h_trace] in E2.
  bind_inv_as H lt h3 E3. apply lift_ok_inv in E3 as [_ ->].
  bind_inv_as H u2 h4 E4. injection E4 as _ <-.
  bind_inv_as H rv h5 E5. apply valid_batches_trace in E5 as [_ Ht5].
  cbn [h_trace] in Ht5.
  bind_inv_as H lv h6 E6. apply lift_ok_inv in E6 as [_ ->].
  unfold bind, get_model, ret in H. injection H as _ <-.
  rewrite Ht5. exact E2.
Qed.

Lemma epoch_loop_steps (num_iter : Z) (epochs : list Z) :
  forall (v v' : locals) (h h' : heap),
    epoch_loop dataloaders datasets_len criterion output_path
      L1lambda L2lambda L1norm L2norm num_iter epochs v h = (Ok v', h') ->
    exists k,
      length (train_losses v') = (length (train_losses v) + k)%nat /\
      optimizer_steps (h_trace h') =
        (optimizer_steps (h_trace h) + k * length (dataloader dataloaders train))%nat.
Proof.
  induction epochs as [|epoch rest IH]; intros v v' h h' H; cbn [epoch_loop] in H.
  - injection H as <- <-. exists 0%nat. split; lia.
  - bind_inv_as H v1 h1 E1.
    pose proof (epoch_body_locals _ _ _ _ _ _ _ _ _ _ _ _ _ _ E1) as (lt & lv & Ht & _).
    apply epoch_body_steps in E1.
    destruct (early_stop (early_stopping v1)).
    + injection H as <- <-. exists 1%nat. rewrite Ht, length_app. cbn [length]. split; lia.
    + apply IH in H as (k & Hk & Hs). exists (S k).
      rewrite Hk, Hs, E1, Ht, length_app. cbn [length]. split; lia.
Qed.

(** X5: when [train_val] returns, the optimizer has been stepped exactly
    once for every training batch of every epoch that ran: the number of
    [optimizer.step()] calls it made is the length of the returned
    [train_losses] times the number of training batches, with or without a
    scheduler. *)
Theorem train_val_optimizer_steps (nepochs : Z) (h h' : heap)
    (tl vl : list Q) (b : Q) :
  train_val dataloaders datasets_len criterion nepochs output_path
    L1lambda L2lambda L1norm L2norm h = (Ok (tl, vl, b), h') ->
  optimizer_steps (h_trace h') =
    (optimizer_steps (h_trace h) +
     length tl * length (dataloader dataloaders train))%nat.
Proof.
  intros H. apply train_val_ok_inv in H as (v & h1 & Hloop & -> & _ & _ & _ & Hsave).
  apply epoch_loop_steps in Hloop as (k & Hk & Hs). cbn [train_losses length] in Hk.
  simpl in Hk. subst k.
  assert (Ht : optimizer_steps (h_trace h') = optimizer_steps (h_trace h1)).
  { destruct output_path as [p|]; [destruct (best_model_wts v) as [w|]|];
      [apply save_ok_inv in Hsave as [_ ->] | injection Hsave as <-..];
      [|reflexivity..].
    cbn [h_trace]. rewrite optimizer_steps_app. cbn. lia. }
  rewrite Ht. exact Hs.
Qed.

Lemma os_path_dirname_no_sep (p : string) :
  forallb (fun c => negb (is_sep c)) (list_ascii_of_string p) = true ->
  os_path_dirname p = EmptyString.
Proof.
  intros Hp. unfold os_path_dirname, upto_last_sep.
  assert (Hd : drop_while (fun c => negb (is_sep c)) (rev (list_ascii_of_string p)) = []).
  { assert (Hr : forallb (fun c => negb (is_sep c)) (rev (list_ascii_of_string p)) = true).
    { rewrite forallb_forall in *. intros c Hc. apply Hp, in_rev, Hc. }
    induction (rev (list_ascii_of_string p)) as [|c l IH]; [reflexivity|].
    simpl in Hr. apply andb_prop in Hr as [Hc Hl]. simpl. rewrite Hc. apply IH, Hl. }
  rewrite Hd. reflexivity.
Qed.

(** X6: an [output_path] without any ['/'], a bare file name, always makes
    [train_val] raise its [RuntimeError], whatever the file system holds:
    [os.path.dirname] of it is the empty string, which never exists.
    Nothing has been done to the heap. *)
Theorem train_val_bare_file_name (nepochs : Z) (p : string) (h : heap) :
  output_path = Some p ->
  forallb (fun c => negb (is_sep c)) (list_ascii_of_string p) = true ->
  train_val dataloaders datasets_len criterion nepochs output_path
    L1lambda L2lambda L1norm L2norm h =
  (Raise (RuntimeError " does not exist"), h).
Proof.
  intros Hp Hbare. pose proof (os_path_dirname_no_sep p Hbare) as Hd.
  unfold train_val, bind. rewrite Hp. cbv zeta. rewrite Hd. reflexivity.
Qed.

End TrainValFrames.

(** ** [add_regularization]: the value returned *)

Section RegularizationValue.
Context {TT : TorchTypes} {TO : TorchOps}.

Lemma l2_accumulate_sum (ps : list tensor) :
  forall (a r : Q) (b c : bool),
    fold_left l2_accumulate ps (Some (a, b)) = Some (r, c) ->
    r == a + fold_right (fun W acc => norm2 W + acc) 0 ps.
Proof.
  induction ps as [|W ps IH]; intros a r b c H; simpl in H.
  - injection H as <- _. simpl. ring.
  - apply IH in H. rewrite H. simpl. ring.
Qed.

(** X7: the loss [add_regularization] returns is the base loss plus
    [L1lambda] times the 1-norm of the first layer's weight, when [L1norm]
    is set, plus [L2lambda] times the sum of the 2-norms of all parameters,
    when [L2norm] is set. *)
Theorem add_regularization_value (model : module) (loss : loss_t)
    (L1norm L2norm : bool) (L1lambda L2lambda : Q) (r : loss_t) :
  add_regularization model loss L1norm L2norm L1lambda L2lambda = Ok r ->
  item r == item loss
            + (if L1norm then L1lambda * first_weight_norm1 model else 0)
            + (if L2norm then L2lambda * norm2_sum model else 0).
Proof.
  unfold add_regularization, loss_iadd, first_weight_norm1, norm2_sum.
  assert (Hl2 : forall s c,
             fold_left l2_accumulate (parameters model) None = Some (s, c) ->
             s == fold_right (fun W acc => norm2 W + acc) 0 (parameters model)).
  { intros s c. destruct (parameters model) as [|W ps]; [discriminate|].
    simpl. intros H. apply l2_accumulate_sum in H. exact H. }
  destruct (leaf_requires_grad loss) eqn:El.
  - destruct L1norm.
    + destruct (fc model) as [|l0 ls]; [discriminate|].
      destruct (weight l0) as [W|]; discriminate.
    + destruct L2norm.
      * destruct (fold_left l2_accumulate (parameters model) None) as [[s c]|];
          [rewrite El|]; discriminate.
      * intros [= <-]. ring.
  - destruct L1norm.
    + destruct (fc model) as [|l0 ls]; [discriminate|].
      destruct (weight l0) as [W|]; [|discriminate].
      destruct L2norm.
      * destruct (fold_left l2_accumulate (parameters model) None) as [[s c]|] eqn:E;
          [|discriminate].
        cbn. intros [= <-]. cbn. rewrite (Hl2 s c eq_refl). ring.
      * intros [= <-]. cbn. ring.
    + destruct L2norm.
      * destruct (fold_left l2_accumulate (parameters model) None) as [[s c]|] eqn:E;
          [|discriminate].
        rewrite El. intros [= <-]. cbn. rewrite (Hl2 s c eq_refl). ring.
      * intros [= <-]. ring.
Qed.

End RegularizationValue.

(** ** The tuners: what they leave alone *)

Section TunerFrames.
Context {TT : TorchTypes} {TO : TorchOps} {ES : EarlyStoppingT}.

Variable power10 : Q -> Q.
Variable dataloaders : dataloaders_t.
Variable datasets_len : datasets_len_t.
Variable criterion : tensor -> tensor -> Q.
Variable nepochs : Z.
Variable structure_t : Type.
Variable DNN : structure_t -> module.
Variable adamw_kw : adamw_kw_t.

Lemma train_val_no_path_same_fs (L1lambda L2lambda : Q) (L1norm L2norm : bool) :
  preserves same_fs
    (train_val dataloaders datasets_len criterion nepochs None
       L1lambda L2lambda L1norm L2norm).
Proof.
  intros h r h' H.
  destruct (train_val_cases dataloaders datasets_len criterion None
              L1lambda L2lambda L1norm L2norm nepochs h)
    as [(p & Hp & _) | (rl & h1 & Hl & E)]; [discriminate|].
  apply epoch_loop_same_fs in Hl.
  destruct rl; rewrite E in H; injection H as _ <-; exact Hl.
Qed.

Lemma same_objects_trans (h1 h2 h3 : heap) :
  same_objects h1 h2 -> same_objects h2 h3 -> same_objects h1 h3.
Proof.
  unfold same_objects. intros (A1 & A2 & A3 & A4) (B1 & B2 & B3 & B4).
  repeat split; congruence.
Qed.

Lemma tune_model_structure_trials_frame (structures : list structure_t) :
  forall acc,
    preserves same_objects
      (tune_model_structure_trials DNN dataloaders datasets_len criterion nepochs
         adamw_kw structures acc).
Proof.
  induction structures as [|s rest IH]; intros acc; cbn [tune_model_structure_trials].
  - apply preserves_ret. unfold same_objects. auto.
  - apply preserves_bind; [exact same_objects_trans | | intros r; apply IH].
    intros h r h'. unfold with_locals.
    destruct (train_val _ _ _ _ _ _ _ _ _ _) as [r1 h1] eqn:E.
    intros [= _ <-]. apply train_val_no_path_same_fs in E.
    unfold same_objects, same_fs in *. cbn in *. auto.
Qed.

(** X10: whatever its outcome, [tune_model_structure] leaves the caller's
    model, optimizer, scheduler and file system as they were: every trial
    runs on a model and an optimizer of its own, and nothing is saved. *)
Theorem tune_model_structure_frame (structures : list structure_t) (h : heap) :
  same_objects h
    (snd (tune_model_structure DNN dataloaders datasets_len criterion nepochs
            structures adamw_kw h)).
Proof.
  destruct (tune_model_structure _ _ _ _ _ _ _ h) as [r h'] eqn:E. cbn [snd].
  revert E. unfold tune_model_structure.
  destruct (negb (nepochs <? 10)%Z).
  - intros [= _ <-]. unfold same_objects. auto.
  - revert h r h'.
    apply preserves_bind;
      [exact same_objects_trans | apply tune_model_structure_trials_frame |].
    intros losses. apply preserves_bind; [exact same_objects_trans | |].
    + apply preserves_lift. unfold same_objects. auto.
    + intros i. destruct (nth_error structures i);
        [apply preserves_ret | apply preserves_raise]; unfold same_objects; auto.
Qed.

(** X11: with [nepochs < 10] and an empty list of candidate structures,
    [tune_model_structure] raises the [ValueError] of [np.argmin] on an
    empty sequence. *)
Theorem tune_model_structure_no_candidate (h : heap) :
  (nepochs < 10)%Z ->
  tune_model_structure DNN dataloaders datasets_len criterion nepochs [] adamw_kw h
  = (Raise ValueError, h).
Proof.
  intros Hn. unfold tune_model_structure. apply Z.ltb_lt in Hn. rewrite Hn.
  reflexivity.
Qed.

Lemma same_fs_sched_trans (h1 h2 h3 : heap) :
  same_fs_sched h1 h2 -> same_fs_sched h2 h3 -> same_fs_sched h1 h3.
Proof. unfold same_fs_sched. intros [A1 A2] [B1 B2]. split; congruence. Qed.

Lemma tune_L1_trials_frame (l1_lambdas : list Q) :
  forall acc,
    preserves same_fs_sched
      (tune_L1_trials dataloaders datasets_len criterion nepochs l1_lambdas acc).
Proof.
  induction l1_lambdas as [|l rest IH]; intros acc; cbn [tune_L1_trials].
  - apply preserves_ret. unfold same_fs_sched. auto.
  - apply preserves_bind; [exact same_fs_sched_trans | |].
    { apply preserves_get_model. unfold same_fs_sched. auto. }
    intros model. apply preserves_bind; [exact same_fs_sched_trans | |].
    { intros h r h' [= _ <-]. unfold same_fs_sched. auto. }
    intros _. apply preserves_bind; [exact same_fs_sched_trans | | intros r; apply IH].
    intros h r h'. unfold without_scheduler.
    destruct (train_val _ _ _ _ _ _ _ _ _ _) as [r1 h1] eqn:E.
    intros [= _ <-]. apply train_val_no_path_same_fs in E.
    unfold same_fs_sched, same_fs in *. cbn in *. auto.
Qed.

(** X12: whatever its outcome, [tune_L1] writes no file and leaves the
    caller's scheduler binding alone: its trials call [train_val] without
    [output_path] and without scheduler. *)
Theorem tune_L1_frame (h : heap) :
  same_fs_sched h
    (snd (tune_L1 power10 dataloaders datasets_len criterion nepochs h)).
Proof.
  destruct (tune_L1 _ _ _ _ _ h) as [r h'] eqn:E. cbn [snd].
  revert E. unfold tune_L1.
  destruct (negb (nepochs <? 10)%Z).
  - intros [= _ <-]. unfold same_fs_sched. auto.
  - revert h r h'.
    apply preserves_bind; [exact same_fs_sched_trans | apply tune_L1_trials_frame |].
    intros losses. apply preserves_bind; [exact same_fs_sched_trans | |].
    + apply preserves_lift. unfold same_fs_sched. auto.
    + intros i. destruct (nth_error _ i);
        [apply preserves_ret | apply preserves_raise]; unfold same_fs_sched; auto.
Qed.

End TunerFrames.

(** ** The further properties on concrete runs *)


(** X3 on the run that saves to [/out/model.pt]. *)
Lemma train_val_file_system_witness :
  (forall q, q <> "/out/model.pt"%string ->
             h_fs (snd Examples.improving) q = Toy.fs0 q) /\
  exists w, h_fs (snd Examples.improving) "/out/model.pt"%string = Some (File w).
Proof.
  destruct (train_val_file_system (TO := Toy.ops) (ES := EarlyStopping_spec)
              (Toy.loaders [(0, 1); (1, 1)] [(0, 5)]) (Toy.sizes 2 1) Toy.mse
              (Some "/out/model.pt"%string) 1.0e-3 1.0e-6 true false 4
              (Toy.heap0 0 (Some []))) as (_ & _ & Hp).
  destruct (Hp "/out/model.pt"%string eq_refl) as [Hother Hsaved].
  split; [exact Hother|].
  apply (Hsaved ([200100000 # 200000000; 1000500000 # 200000000;
                  3400900000 # 200000000; 7401300000 # 200000000], [9; 1; 1; 9], 1)).
  vm_compute. reflexivity.
Defined.

(** X4 on the run that the monitor stops early. *)
Lemma train_val_without_scheduler_witness :
  h_sched (Toy.heap0 0 None) = None /\
  h_sched (snd Examples.stopped_early) = None /\
  scheduler_args (h_trace (snd Examples.stopped_early)) = [].
Proof.
  split; [reflexivity|].
  apply (train_val_without_scheduler (TO := Toy.ops) (ES := EarlyStopping_spec)
           (Toy.loaders [(0, 1)] [(0, 0)]) (Toy.sizes 1 1) Toy.mse None
           1.0e-3 1.0e-6 false false 15 (Toy.heap0 0 None)).
  reflexivity.
Defined.

(** X5 on four epochs over two training batches. *)
Lemma train_val_optimizer_steps_witness :
  optimizer_steps (h_trace (snd Examples.improving)) = (0 + 4 * 2)%nat.
Proof.
  apply (train_val_optimizer_steps (TO := Toy.ops) (ES := EarlyStopping_spec)
           (Toy.loaders [(0, 1); (1, 1)] [(0, 5)]) (Toy.sizes 2 1) Toy.mse
           (Some "/out/model.pt"%string) 1.0e-3 1.0e-6 true false 4
           (Toy.heap0 0 (Some [])) (snd Examples.improving)
           [200100000 # 200000000; 1000500000 # 200000000;
            3400900000 # 200000000; 7401300000 # 200000000] [9; 1; 1; 9] 1).
  vm_compute. reflexivity.
Defined.

(** X6 for [model.pt], in a file system where even [model.pt] exists. *)
Lemma train_val_bare_file_name_witness :
  let fs : filesystem (TT := Toy.types) :=
    fun p => if String.eqb p "model.pt" then Some (File []) else Some Dir in
  let h := {| h_model := Toy.net 0; h_optim := 0%nat; h_sched := None;
              h_fs := fs; h_trace := [] |} in
  train_val (TO := Toy.ops) (ES := EarlyStopping_spec)
    (Toy.loaders [(0, 1)] [(0, 3)]) (Toy.sizes 1 1) Toy.mse 3
    (Some "model.pt"%string) 1.0e-3 1.0e-6 false false h
  = (Raise (RuntimeError " does not exist"), h).
Proof.
  intros fs h.
  apply (train_val_bare_file_name (TO := Toy.ops) (ES := EarlyStopping_spec)
           (Toy.loaders [(0, 1)] [(0, 3)]) (Toy.sizes 1 1) Toy.mse
           (Some "model.pt"%string) 1.0e-3 1.0e-6 false false 3 "model.pt"%string h);
    reflexivity.
Defined.

(** X7 on the model with weight [-3]: [5 + 1/2 * 3 + 2 * 3]. *)
Lemma add_regularization_value_witness :
  let r := {| item := 5 + (1 # 2) * Qabs (-3) + 2 * Qabs (-3);
              leaf_requires_grad := false; saved_modified := false |} in
  add_regularization (TO := Toy.ops) (Toy.net (-3)) (criterion_loss 5)
    true true (1 # 2) 2 = Ok r /\
  item r
  == 5 + (1 # 2) * first_weight_norm1 (TO := Toy.ops) (Toy.net (-3))
       + 2 * norm2_sum (TO := Toy.ops) (Toy.net (-3)).
Proof.
  intros r. split; [reflexivity|].
  apply (add_regularization_value (TO := Toy.ops) (Toy.net (-3)) (criterion_loss 5)
           true true (1 # 2) 2 r).
  reflexivity.
Defined.

(** X11 at [nepochs = 5]. *)
Lemma tune_model_structure_no_candidate_witness :
  (5 < 10)%Z /\
  tune_model_structure (TO := Toy.ops) (ES := EarlyStopping_spec) Toy.net
    (Toy.loaders [(0, 1)] [(0, 3)]) (Toy.sizes 1 1) Toy.mse 5 [] tt (Toy.heap0 0 None)
  = (Raise ValueError, Toy.heap0 0 None).
Proof.
  split; [lia|].
  apply (tune_model_structure_no_candidate (TO := Toy.ops) (ES := EarlyStopping_spec)
           (Toy.loaders [(0, 1)] [(0, 3)]) (Toy.sizes 1 1) Toy.mse 5 Q Toy.net tt
           (Toy.heap0 0 None)).
  lia.
Defined.

(** ** [set_logger] *)

(** X13: [set_logger] configures the root logger once.  On a logger that
    already has a handler it adds none and opens no file, whatever
    [log_path] is; so after one successful call every further call, with
    whatever path, leaves the logger exactly as it is: no handler is
    duplicated and a later [log_path] is ignored. *)
Theorem set_logger_once (can_open can_open' : string -> bool)
    (log_path log_path' : option string) (root configured : Logging.logger) :
  (Logging.handlers root <> [] ->
   Logging.set_logger can_open log_path root
   = (Ok tt, Logging.setLevel Logging.INFO root)) /\
  (Logging.set_logger can_open log_path root = (Ok tt, configured) ->
   Logging.handlers configured <> [] /\
   Logging.set_logger can_open' log_path' configured = (Ok tt, configured)).
Proof.
  split.
  - intros Hh. unfold Logging.set_logger. cbn [Logging.setLevel Logging.handlers].
    destruct (Logging.handlers root); [congruence | reflexivity].
  - unfold Logging.set_logger. cbn [Logging.setLevel Logging.handlers].
    destruct (Logging.handlers root) as [|hd hs] eqn:Eh.
    + destruct log_path as [p|]; [destruct (can_open p)|]; intros H;
        try discriminate H; injection H as <-; cbn; rewrite Eh;
        (split; [discriminate | reflexivity]).
    + intros [= <-]. cbn. rewrite Eh. split; [discriminate | reflexivity].
Qed.

(** X13 on a fresh root logger and two different paths. *)
Lemma set_logger_once_witness :
  let fresh := {| Logging.lg_level := Logging.WARNING; Logging.handlers := [] |} in
  let configured :=
    {| Logging.lg_level := Logging.INFO;
       Logging.handlers :=
         [Logging.FileHandler "/out/a.log"%string (Some Logging.file_formatter);
          Logging.StreamHandler (Some Logging.stream_formatter)] |} in
  Logging.set_logger (fun _ => true) (Some "/out/a.log"%string) fresh
    = (Ok tt, configured) /\
  Logging.handlers configured <> [] /\
  Logging.set_logger (fun _ => true) (Some "/out/b.log"%string) configured
    = (Ok tt, configured).
Proof.
  intros fresh configured. split; [reflexivity|].
  apply (set_logger_once (fun _ => true) (fun _ => true)
           (Some "/out/a.log"%string) (Some "/out/b.log"%string) fresh configured).
  reflexivity.
Defined.

(** ** The paths derived from [output_path] *)

Lemma list_ascii_of_string_app (a b : string) :
  list_ascii_of_string (a ++ b) = list_ascii_of_string a ++ list_ascii_of_string b.
Proof. induction a as [|c a IH]; simpl; [reflexivity | rewrite IH; reflexivity]. Qed.

Lemma string_of_list_ascii_app (a b : list ascii) :
  string_of_list_ascii (a ++ b) = (string_of_list_ascii a ++ string_of_list_ascii b)%string.
Proof. induction a as [|c a IH]; simpl; [reflexivity | rewrite IH; reflexivity]. Qed.

Lemma replace_from_absent (old new : list ascii) (s : list ascii) :
  occurs_in old s = false -> replace_from old new 0 s = s.
Proof.
  induction s as [|c rest IH]; intros H; [reflexivity|].
  cbn [occurs_in] in H. apply orb_false_elim in H as [Hp Hrest].
  cbn [replace_from]. rewrite Hp. f_equal. apply IH, Hrest.
Qed.

Lemma not_prefix_before_suffix (c : ascii) (rest : list ascii) :
  is_prefix dot_pt (c :: rest) = false ->
  is_prefix dot_pt (c :: rest ++ dot_pt) = false.
Proof.
  unfold dot_pt. cbn [list_ascii_of_string is_prefix].
  destruct (Ascii.eqb "." c); [|reflexivity]. cbn [andb].
  destruct rest as [|c2 [|c3 r]]; cbn [app is_prefix].
  - intros _. reflexivity.
  - intros _. destruct (Ascii.eqb "p" c2); reflexivity.
  - destruct (Ascii.eqb "p" c2), (Ascii.eqb "t" c3); cbn; auto.
Qed.

Lemma replace_from_suffix (new base : list ascii) :
  occurs_in dot_pt base = false ->
  replace_from dot_pt new 0 (base ++ dot_pt) = base ++ new.
Proof.
  induction base as [|c rest IH]; intros H.
  - cbn. rewrite app_nil_r. reflexivity.
  - cbn [occurs_in] in H. apply orb_false_elim in H as [Hp Hrest].
    change ((c :: rest) ++ dot_pt) with (c :: rest ++ dot_pt).
    cbn [replace_from]. rewrite (not_prefix_before_suffix c rest Hp).
    cbn [app]. f_equal. apply IH, Hrest.
Qed.

Lemma str_replace_absent (new s : string) :
  occurs_in dot_pt (list_ascii_of_string s) = false ->
  str_replace ".pt" new s = s.
Proof.
  intros H. unfold str_replace. cbn [list_ascii_of_string].
  change [".";"p";"t"]%char with dot_pt.
  rewrite (replace_from_absent dot_pt _ _ H). apply string_of_list_ascii_of_string.
Qed.

Lemma str_replace_suffix (new base : string) :
  occurs_in dot_pt (list_ascii_of_string base) = false ->
  str_replace ".pt" new (base ++ ".pt") = (base ++ new)%string.
Proof.
  intros H. unfold str_replace. cbn [list_ascii_of_string].
  change [".";"p";"t"]%char with dot_pt.
  rewrite list_ascii_of_string_app. change (list_ascii_of_string ".pt") with dot_pt.
  rewrite (replace_from_suffix _ _ H), string_of_list_ascii_app.
  rewrite !string_of_list_ascii_of_string. reflexivity.
Qed.

Lemma string_app_inv_head (a x y : string) : (a ++ x = a ++ y)%string -> x = y.
Proof. induction a as [|c a IH]; simpl; intros H; [exact H | injection H as H; auto]. Qed.

Lemma string_app_inv_tail (x y b : string) : (x ++ b = y ++ b)%string -> x = y.
Proof.
  intros H. apply (f_equal list_ascii_of_string) in H.
  rewrite !list_ascii_of_string_app in H. apply app_inv_tail in H.
  apply (f_equal string_of_list_ascii) in H.
  rewrite !string_of_list_ascii_of_string in H. exact H.
Qed.

Lemma format_d_inj (n n' : nat) : format_d n = format_d n' -> n = n'.
Proof.
  unfold format_d. intros H. apply Unsigned.to_uint_inj.
  apply (f_equal NilEmpty.uint_of_string) in H. rewrite !NilEmpty.usu in H.
  injection H as H. exact H.
Qed.

(** X14: when ['.pt'] does not occur in [output_path], the paths derived
    from it by [replace('.pt', ...)] are [output_path] itself: the log file
    of [SYSNet.__init__] and the checkpoint path of every cross-validation
    partition of [SYSNet.run] all collide with it. *)
Theorem derived_paths_without_pt (output_path : string) :
  occurs_in dot_pt (list_ascii_of_string output_path) = false ->
  Paths.log_path output_path = output_path /\
  (forall partition, Paths.partition_path output_path partition = output_path).
Proof.
  intros H. unfold Paths.log_path, Paths.partition_path.
  split; [|intros partition]; apply str_replace_absent, H.
Qed.

(** X15: when [output_path] is [base + '.pt'] and ['.pt'] does not occur in
    [base], the checkpoint of partition [k] goes to [base + '_k.pt'] and the
    log to [base + '.log']; the checkpoints of different partitions go to
    different paths. *)
Theorem derived_paths_with_pt_suffix (base : string) :
  occurs_in dot_pt (list_ascii_of_string base) = false ->
  Paths.log_path (base ++ ".pt") = (base ++ ".log")%string /\
  (forall k, Paths.partition_path (base ++ ".pt") k
             = (base ++ "_" ++ format_d k ++ ".pt")%string) /\
  (forall k k', Paths.partition_path (base ++ ".pt") k
                = Paths.partition_path (base ++ ".pt") k' -> k = k').
Proof.
  intros H. unfold Paths.log_path, Paths.partition_path.
  split; [apply str_replace_suffix, H|]. split.
  - intros k. apply str_replace_suffix, H.
  - intros k k' E. rewrite !(str_replace_suffix _ _ H) in E.
    apply string_app_inv_head in E. apply (string_app_inv_head "_") in E.
    apply string_app_inv_tail in E. apply format_d_inj, E.
Qed.

(** X14 for [/out/model]. *)
Lemma derived_paths_without_pt_witness :
  Paths.log_path "/out/model" = "/out/model"%string /\
  (forall partition, Paths.partition_path "/out/model" partition = "/out/model"%string).
Proof.
  apply (derived_paths_without_pt "/out/model"). reflexivity.
Defined.

(** X15 for [/out/model.pt]. *)
Lemma derived_paths_with_pt_suffix_witness :
  Paths.log_path "/out/model.pt" = "/out/model.log"%string /\
  (forall k, Paths.partition_path "/out/model.pt" k
             = ("/out/model" ++ "_" ++ format_d k ++ ".pt")%string) /\
  (forall k k', Paths.partition_path "/out/model.pt" k
                = Paths.partition_path "/out/model.pt" k' -> k = k').
Proof.
  apply (derived_paths_with_pt_suffix "/out/model"). reflexivity.
Defined.

(** ** [train_val]: when the division by a dataset size fails *)

Section ZeroDivision.
Context {TT : TorchTypes} {TO : TorchOps} {ES : EarlyStoppingT}.

Variable dataloaders : dataloaders_t.
Variable datasets_len : datasets_len_t.
Variable criterion : tensor -> tensor -> Q.
Variable output_path : option string.
Variables L1lambda L2lambda : Q.





End ZeroDivision.


(** ** [train_val]: the errors after the directory check *)

Section LateErrors.
Context {TT : TorchTypes} {TO : TorchOps} {ES : EarlyStoppingT}.

Variable dataloaders : dataloaders_t.
Variable datasets_len : datasets_len_t.
Variable criterion : tensor -> tensor -> Q.
Variables L1lambda L2lambda : Q.
Variable L1norm : bool.

Lemma l2_accumulate_stays_modified (ps : list tensor) :
  forall r, exists r', fold_left l2_accumulate ps (Some (r, true)) = Some (r', true).
Proof.
  induction ps as [|W ps IH]; intros r; [exists r; reflexivity|].
  cbn [fold_left l2_accumulate]. apply IH.
Qed.

Lemma l2_accumulate_two (m : module) :
  (2 <= length (parameters m))%nat ->
  exists r, fold_left l2_accumulate (parameters m) None = Some (r, true).
Proof.
  destruct (parameters m) as [|W1 [|W2 ps]]; cbn [length]; try lia. intros _.
  cbn [fold_left l2_accumulate]. apply l2_accumulate_stays_modified.
Qed.

(** With the L2 term on a model of two or more parameter tensors, the
    regularized loss of a criterion is one whose backward pass raises. *)
Lemma add_regularization_l2_modified (m : module) (value : Q) :
  (2 <= length (parameters m))%nat ->
  (L1norm = true -> has_first_weight m) ->
  exists loss,
    add_regularization m (criterion_loss value) L1norm true L1lambda L2lambda
      = Ok loss /\
    saved_modified loss = true.
Proof.
  intros H2 Hw. destruct (l2_accumulate_two m H2) as [r Hr].
  unfold add_regularization, loss_iadd. rewrite Hr.
  destruct L1norm.
  - specialize (Hw eq_refl). unfold has_first_weight in Hw.
    destruct (fc m) as [|l0 ls]; [tauto|].
    destruct (weight l0) as [W|]; [|congruence].
    cbn. eexists. split; reflexivity.
  - cbn. eexists. split; reflexivity.
Qed.

Lemma train_batches_l2_error (epoch num_iter : Z) (data target : tensor)
    (rest : list batch) (i : Z) (running : Q) (h : heap) :
  keeps_parameters ->
  (L1norm = true -> keeps_first_weight /\ has_first_weight (h_model h)) ->
  (2 <= length (parameters (h_model h)))%nat ->
  exists h',
    train_batches criterion L1norm true L1lambda L2lambda epoch num_iter
      ((data, target) :: rest) i running h = (Raise (RuntimeError backward_msg), h') /\
    optimizer_steps (h_trace h') = optimizer_steps (h_trace h) /\
    h_fs h' = h_fs h.
Proof.
  intros Hkp Hl1 H2. cbn [train_batches]. unfold bind at 1.
  set (h1 := match h_sched h with
             | Some sc =>
                 snd (scheduler_step sc
                        (inject_Z epoch + inject_Z i / inject_Z num_iter) h)
             | None => h
             end).
  set (i' := match h_sched h with Some _ => (i + 1)%Z | None => i end).
  assert (E1 : (match h_sched h with
                | Some sc =>
                    bind (scheduler_step sc
                            (inject_Z epoch + inject_Z i / inject_Z num_iter))
                      (fun _ => ret (i + 1)%Z) h
                | None => ret i h
                end) = (Ok i', h1)).
  { subst h1 i'. destruct (h_sched h); [|reflexivity].
    unfold bind, scheduler_step. destruct (sched_step _ _ _). reflexivity. }
  rewrite E1.
  assert (H1 : h_model h1 = h_model h /\ h_fs h1 = h_fs h /\
               optimizer_steps (h_trace h1) = optimizer_steps (h_trace h)).
  { subst h1. destruct (h_sched h); [|auto].
    unfold scheduler_step. destruct (sched_step _ _ _). cbn [snd h_model h_fs h_trace].
    rewrite optimizer_steps_app. cbn. auto with arith. }
  destruct H1 as (Hm1 & Hf1 & Ht1).
  unfold bind at 1, optimizer_zero_grad.
  unfold bind at 1, model_call. cbn [h_model h_optim h_sched h_fs h_trace].
  destruct (forward (zero_grad (h_optim h1) (h_model h1)) data) as [m2 out] eqn:Ef.
  unfold bind at 1, get_model. cbn [h_model].
  assert (Hm2 : (2 <= length (parameters m2))%nat).
  { change m2 with (fst (m2, out)). rewrite <- Ef.
    rewrite (kp_forward Hkp), (kp_zero_grad Hkp), Hm1. exact H2. }
  assert (Hw2 : L1norm = true -> has_first_weight m2).
  { intros Hl. destruct (Hl1 Hl) as [kfw Hw].
    change m2 with (fst (m2, out)). rewrite <- Ef.
    apply (kfw_forward kfw), (kfw_zero_grad kfw). rewrite Hm1. exact Hw. }
  destruct (add_regularization_l2_modified m2 (criterion out target) Hm2 Hw2)
    as (loss & Hloss & Hsaved).
  unfold bind at 1. rewrite Hloss. cbn [lift]. unfold ret at 1.
  unfold bind at 1, loss_backward. rewrite Hsaved.
  eexists. split; [reflexivity|]. cbn [h_trace h_fs].
  rewrite optimizer_steps_app, Ht1. cbn. auto with arith.
Qed.

Variable nepochs : Z.

(** X17: with the L2 term switched on and a model of two or more parameter
    tensors, [train_val] never gets through a training batch: once the
    directory check has passed, with an epoch to run and a training batch
    to run it on, the first [loss.backward()] raises the [RuntimeError] of
    a tensor modified in place ([l2_reg += W.norm(2)] overwrites the norm
    of the first parameter, which its backward pass needs).  No optimizer
    step has been made and nothing has been written. *)
Theorem train_val_l2_backward_error (output_path : option string) (h : heap) :
  keeps_parameters ->
  (L1norm = true -> keeps_first_weight /\ has_first_weight (h_model h)) ->
  (2 <= length (parameters (h_model h)))%nat ->
  (forall p, output_path = Some p ->
             os_path_exists (h_fs h) (os_path_dirname p) = true) ->
  (0 < nepochs)%Z ->
  dataloader dataloaders train <> [] ->
  let out := train_val dataloaders datasets_len criterion nepochs output_path
               L1lambda L2lambda L1norm true h in
  fst out = Raise (RuntimeError backward_msg) /\
  optimizer_steps (h_trace (snd out)) = optimizer_steps (h_trace h) /\
  h_fs (snd out) = h_fs h.
Proof.
  intros Hkp Hl1 H2 Hdir Hn Hne. cbv zeta.
  destruct (train_val_cases dataloaders datasets_len criterion output_path
              L1lambda L2lambda L1norm true nepochs h)
    as [(p & Hp & Hex & _) | (rl & h1 & Hl & E)].
  { rewrite (Hdir p Hp) in Hex. discriminate Hex. }
  assert (Hr : exists rest, py_range nepochs = 0%Z :: rest).
  { unfold py_range. destruct (Z.to_nat nepochs) eqn:En; [lia|].
    eexists. reflexivity. }
  destruct Hr as [rest Hr]. rewrite Hr in Hl.
  destruct (dataloader dataloaders train) as [|[data target] batches] eqn:Edl;
    [congruence|].
  cbn [epoch_loop] in Hl. unfold bind at 1 in Hl. unfold epoch_body in Hl.
  rewrite Edl in Hl.
  unfold bind at 1, model_train, set_model in Hl.
  match type of Hl with
  | context [bind (train_batches ?c ?l1 true ?a ?b ?e ?n ((data, target) :: batches) ?i ?r) _ ?h0] =>
      destruct (train_batches_l2_error e n data target batches i r h0 Hkp)
        as (hb & Eb & Hsteps & Hfs);
        [exact Hl1 | exact H2 |]
  end.
  rewrite (bind_raise _ _ _ _ _ Eb) in Hl. injection Hl as <- <-.
  rewrite E. cbn [fst snd]. cbn [h_trace h_fs] in Hsteps, Hfs. auto.
Qed.

Variable p : string.



End LateErrors.

(** X17 on a layer with a weight and a bias, with one training batch. *)
Lemma train_val_l2_backward_error_witness :
  let h := {| h_model := Toy.net2 0 0; h_optim := 0%nat; h_sched := None;
              h_fs := Toy.fs0; h_trace := [] |} in
  let out := train_val (TO := Toy.ops) (ES := EarlyStopping_spec)
               (Toy.loaders [(0, 1)] [(0, 3)]) (Toy.sizes 1 1) Toy.mse 3
               (Some "/out/model.pt"%string) 1.0e-3 1.0e-6 false true h in
  fst out = Raise (RuntimeError (@backward_msg _ Toy.ops)) /\
  optimizer_steps (h_trace (snd out)) = 0%nat /\
  h_fs (snd out) = Toy.fs0.
Proof.
  intros h.
  apply (train_val_l2_backward_error (TO := Toy.ops) (ES := EarlyStopping_spec)
           (Toy.loaders [(0, 1)] [(0, 3)]) (Toy.sizes 1 1) Toy.mse 1.0e-3 1.0e-6
           false 3 (Some "/out/model.pt"%string) h).
  - split; reflexivity.
  - discriminate.
  - cbn. lia.
  - intros p Hp. injection Hp as <-. reflexivity.
  - lia.
  - discriminate.
Defined.

